(** * Impulcifer: impulse-response extraction pipeline

    A shallow embedding of [impulcifer.py] and of the parts of pydub, numpy
    and scipy it calls, followed by the properties of the pipeline.

    Conventions of the embedding:
    - a sample is a [Z]; a mono buffer is a [list Z];
    - a position or a duration in milliseconds is a [Q]: binary64 arithmetic
      is replaced by exact rational arithmetic, and [np.sqrt] by a square
      root rounded down to a multiple of [2^-64] (exact on squares of such
      multiples); a property that depends on a position is stated at inputs
      where binary64 gives the same frames, under hypotheses that make it
      so, or for every position the rounding could give;
    - a numpy float that can be [nan] is an [option Q], [None] being [nan];
    - a Python exception is a constructor of [exn], a call that can raise
      returns a [result]. *)

From Stdlib Require Import Ascii String.
From Stdlib Require Import ZArith QArith Qround Qabs List Bool Lia Lqa.
Import ListNotations.
Open Scope Z_scope.

(** ** Exceptions and results *)

Inductive exn : Type :=
| NotImplementedError (msg : string)
| TypeError (msg : string)
| ValueError (args : list string)
| IndexError
| UnboundLocalError (var : string)
| KeyError (key : string)
| ZeroDivisionError
| FileNotFoundError (path : string)
| TooManyMissingFrames.

Inductive result (A : Type) : Type :=
| Ok (a : A)
| Raise (e : exn).

Arguments Ok {A} a.
Arguments Raise {A} e.

Definition bind {A B : Type} (m : result A) (k : A -> result B) : result B :=
  match m with
  | Ok a => k a
  | Raise e => Raise e
  end.

Notation "x <- m ;; k" := (bind m (fun x => k))
  (at level 61, m at next level, right associativity).
Notation "' pat <- m ;; k" := (bind m (fun x => match x with pat => k end))
  (at level 61, pat pattern, m at next level, right associativity).

(** ** Python numbers and sequences *)

Module Py.

(** [int(x)] on a float: truncation toward zero. *)
Definition int (q : Q) : Z := Z.quot (Qnum q) (Z.pos (Qden q)).

(** [round(x)] of Python 3: to the nearest integer, ties to even. *)
Definition round (q : Q) : Z :=
  let f := Qfloor q in
  match (q - inject_Z f ?= 1 # 2)%Q with
  | Lt => f
  | Gt => f + 1
  | Eq => if Z.even f then f else f + 1
  end.

(** Normalisation of one bound of a slice [l[i:j]] over a sequence of
    length [n]: a negative bound counts from the end, and every bound is
    clamped to [0..n]. *)
Definition clamp (n k : Z) : Z :=
  if k <? 0 then Z.max (k + n) 0 else Z.min k n.

(** [l[i:j]] with both bounds given. *)
Definition slice {A : Type} (l : list A) (i j : Z) : list A :=
  let n := Z.of_nat (length l) in
  let i' := clamp n i in
  let j' := clamp n j in
  firstn (Z.to_nat (j' - i')) (skipn (Z.to_nat i') l).

(** [range(a, b)] and [range(a, b, -1)]. *)
Definition range (a b : Z) : list Z :=
  map (fun k => a + Z.of_nat k) (seq 0 (Z.to_nat (b - a))).

Definition range_down (a b : Z) : list Z :=
  map (fun k => a - Z.of_nat k) (seq 0 (Z.to_nat (a - b))).

(** [x < y], [x > y] on floats. *)
Definition ltb (x y : Q) : bool :=
  match (x ?= y)%Q with Lt => true | _ => false end.

Definition gtb (x y : Q) : bool := ltb y x.

(** [min(x, y)]: [x] unless [y] is smaller. *)
Definition min (x y : Q) : Q := if ltb y x then y else x.

End Py.

(** ** numpy *)

Module Np.

(** A float64 that may be [nan]. *)
Definition float := option Q.

Inductive dtype := Int8 | Int16 | Int32 | UInt8.

Definition sum (l : list Q) : Q := fold_right Qplus 0%Q l.

(** [np.mean]: [nan] on an empty array. *)
Definition mean (l : list Q) : float :=
  match l with
  | [] => None
  | _ => Some (sum l / inject_Z (Z.of_nat (length l)))%Q
  end.

(** [np.mean] of an array that can hold [nan]. *)
Fixpoint all_finite (l : list float) : option (list Q) :=
  match l with
  | [] => Some []
  | None :: _ => None
  | Some q :: l' =>
      match all_finite l' with
      | Some qs => Some (q :: qs)
      | None => None
      end
  end.

Definition mean_f (l : list float) : float :=
  match all_finite l with
  | Some qs => mean qs
  | None => None
  end.

Definition square (l : list Q) : list Q := map (fun x => x * x)%Q l.

(** [np.sqrt] of a nonnegative float, rounded down to a multiple of
    [2^-64]. *)
Definition sqrt_q (q : Q) : Q :=
  Z.sqrt (Qfloor (q * inject_Z (2 ^ 128))) # (2 ^ 64).

Definition sqrt (x : float) : float :=
  match x with
  | Some q => Some (sqrt_q q)
  | None => None
  end.

(** [np.max([a, b])]: [nan] as soon as one entry is. *)
Definition max2 (a b : float) : float :=
  match a, b with
  | Some x, Some y => Some (if Py.ltb x y then y else x)
  | _, _ => None
  end.

(** [a > b]: false as soon as one side is [nan]. *)
Definition gtb (a b : float) : bool :=
  match a, b with
  | Some x, Some y => Py.gtb x y
  | _, _ => false
  end.

Definition scale (a : float) (k : Q) : float :=
  match a with
  | Some x => Some (x * k)%Q
  | None => None
  end.

End Np.

(** ** pydub's [AudioSegment] *)

Module AudioSegment.

(** A segment holds its sample width in bytes, its frame rate in Hz and
    its tracks, one list of samples per channel, all of one length. A
    mono segment has one track. *)
Record t : Type := make {
  sample_width : Z;
  frame_rate : Z;
  tracks : list (list Z)
}.

Definition mono (sw fs : Z) (data : list Z) : t := make sw fs [data].

Definition channels (seg : t) : Z := Z.of_nat (length (tracks seg)).

(** [frame_count()] without argument: the number of frames held. *)
Definition frames (seg : t) : Z :=
  Z.of_nat (length (hd [] (tracks seg))).

(** [frame_count(ms=...)]: [ms * (frame_rate / 1000.0)]. *)
Definition frame_count_ms (seg : t) (ms : Q) : Q :=
  (ms * (inject_Z (frame_rate seg) / 1000))%Q.

(** [len(seg)]: the duration in whole milliseconds,
    [round(1000 * (frame_count() / frame_rate))]. *)
Definition len (seg : t) : Z :=
  Py.round (1000 * (inject_Z (frames seg) / inject_Z (frame_rate seg)))%Q.

(** [get_array_of_samples()] of a mono segment. *)
Definition get_array_of_samples (seg : t) : list Z := hd [] (tracks seg).

(** The numpy dtype of [np.array(seg.get_array_of_samples())]: pydub
    holds widths of 1, 2 and 4 bytes as signed arrays. *)
Definition array_type (seg : t) : Np.dtype :=
  if sample_width seg =? 1 then Np.Int8
  else if sample_width seg =? 2 then Np.Int16
  else Np.Int32.

(** [_parse_position]: a position in milliseconds to a frame index; a
    negative position counts from [len(seg)]. *)
Definition parse_position (seg : t) (val : Q) : Z :=
  let val' := if Py.ltb val 0 then (inject_Z (len seg) - Qabs val)%Q else val in
  Py.int (frame_count_ms seg val').

(** [seg[start:stop]] in milliseconds ([__getitem__] on a slice without
    step). A missing bound is [None]. Up to two milliseconds of frames
    missing at the end are filled with silence, more raises. *)
Definition getslice (seg : t) (start stop : option Q) : result t :=
  let l := inject_Z (len seg) in
  let start := match start with Some s => s | None => 0%Q end in
  let stop := match stop with Some e => e | None => l end in
  let start := Py.min start l in
  let stop := Py.min stop l in
  let sf := parse_position seg start in
  let ef := parse_position seg stop in
  let data := map (fun tr => Py.slice tr sf ef) (tracks seg) in
  let got := Z.of_nat (length (hd [] data)) in
  let missing_frames := (ef - sf) - got in
  if missing_frames =? 0 then Ok (make (sample_width seg) (frame_rate seg) data)
  else if Py.gtb (inject_Z missing_frames) (frame_count_ms seg 2)
  then Raise TooManyMissingFrames
  else
    let pad := if got =? 0 then 0%nat else Z.to_nat missing_frames in
    Ok (make (sample_width seg) (frame_rate seg)
             (map (fun tr => tr ++ repeat 0 pad) data)).

(** [split_to_mono()]. *)
Definition split_to_mono (seg : t) : list t :=
  map (mono (sample_width seg) (frame_rate seg)) (tracks seg).

(** [audioop.mul]: every sample times [factor], rounded toward minus
    infinity and clipped to the range of the sample width. *)
Definition maxval (sw : Z) : Z := 2 ^ (8 * sw - 1) - 1.
Definition minval (sw : Z) : Z := - 2 ^ (8 * sw - 1).

Definition fbound (val : Q) (lo hi : Z) : Z :=
  if Py.gtb val (inject_Z hi) then hi
  else if Py.ltb val (inject_Z lo + 1) then lo
  else Qfloor val.

Definition mul (sw : Z) (factor : Q) (data : list Z) : list Z :=
  map (fun v => fbound (inject_Z v * factor) (minval sw) (maxval sw)) data.

(** [seg.max] ([audioop.max]): the largest absolute sample value. *)
Definition max (seg : t) : Z :=
  fold_right Z.max 0 (map Z.abs (concat (tracks seg))).

(** [seg.max_possible_amplitude]: [2 ** bits / 2]. *)
Definition max_possible_amplitude (seg : t) : Q :=
  (inject_Z (2 ^ (8 * sample_width seg)) / 2)%Q.

(** [db_to_float(-0.1)], the binary64 value of [10 ** (-0.1 / 20)]. *)
Definition headroom_gain : Q := 8904094697465881 # 9007199254740992.

(** [seg.normalize()] with the default headroom of 0.1 dB: a silent
    segment is returned as it is, any other is scaled so that its peak
    sits 0.1 dB under full scale. The gain
    [db_to_float(ratio_to_db(target_peak / peak_sample_val))] is taken as
    [target_peak / peak_sample_val]. *)
Definition normalize (seg : t) : t :=
  let peak_sample_val := max seg in
  if peak_sample_val =? 0 then seg
  else
    let target_peak := (max_possible_amplitude seg * headroom_gain)%Q in
    let gain := (target_peak / inject_Z peak_sample_val)%Q in
    make (sample_width seg) (frame_rate seg)
         (map (mul (sample_width seg) gain) (tracks seg)).

(** [seg.rms] ([audioop.rms]): the integer part of the square root of the
    mean of the squared samples, 0 on an empty segment. *)
Definition rms (seg : t) : Z :=
  let data := concat (tracks seg) in
  match data with
  | [] => 0
  | _ => Z.sqrt (fold_right Z.add 0 (map (fun v => v * v) data)
                 / Z.of_nat (length data))
  end.

(** [seg.fade_in(duration)] on a mono segment, that is
    [fade(from_gain=-120, start=0, duration=duration)], for a duration of
    at most 100 ms (the sample-precise branch of [fade]): the frames
    before [int(frame_count(ms=duration))] are scaled by a gain that
    ramps up from [db_to_float(-120)], the rest is [seg[duration:]]. *)
Definition fade_in (seg : t) (duration : Q) : result t :=
  let sw := sample_width seg in
  let data := get_array_of_samples seg in
  let from_power : Q := 1 # 1000000 in
  before <- getslice seg None (Some 0%Q) ;;
  let before_fade := mul sw from_power (get_array_of_samples before) in
  let gain_delta := (1 - from_power)%Q in
  let start_frame := frame_count_ms seg 0 in
  let end_frame := frame_count_ms seg (0 + duration) in
  let fade_frames := (end_frame - start_frame)%Q in
  let scale_step := (gain_delta / fade_frames)%Q in
  let faded :=
    flat_map (fun i =>
                let volume_change := (from_power + scale_step * inject_Z i)%Q in
                mul sw volume_change
                    (Py.slice data (Py.int (start_frame + inject_Z i))
                                   (Py.int (start_frame + inject_Z i) + 1)))
             (Py.range 0 (Py.int fade_frames)) in
  after <- getslice seg (Some (0 + duration)%Q) None ;;
  Ok (mono sw (frame_rate seg)
           (before_fade ++ faded ++ get_array_of_samples after)).

(** [audioop.lin2lin]: samples of width [sw] to width [sw']. *)
Definition lin2lin (sw sw' : Z) (data : list Z) : list Z :=
  if sw' <? sw then map (fun v => v / 2 ^ (8 * (sw - sw'))) data
  else map (fun v => v * 2 ^ (8 * (sw' - sw))) data.

(** [AudioSegment.from_mono_audiosegments]: at least one segment,
    all brought to the largest sample width ([_sync]), all mono; with more
    than one segment, each must fill its channel of the interleaved array
    exactly, so all must have the frame count of the longest. The callers
    pass segments of one frame rate, so the resampling of [_sync] is left
    out. *)
Definition from_mono_audiosegments (segs : list t) : result t :=
  match segs with
  | [] => Raise (ValueError ["At least one AudioSegment instance is required"%string])
  | seg0 :: _ =>
      let sw := fold_right Z.max 0 (map sample_width segs) in
      let fs := fold_right Z.max 0 (map frame_rate segs) in
      if negb (forallb (fun seg => channels seg =? 1) segs)
      then Raise (ValueError ["from_mono_audiosegments requires all arguments are mono AudioSegment instances"%string])
      else
        let frame_count := fold_right Z.max 0 (map frames segs) in
        if (1 <? Z.of_nat (length segs))
           && negb (forallb (fun seg => frames seg =? frame_count) segs)
        then Raise (ValueError ["attempt to assign array to extended slice of another size"%string])
        else
          Ok (make sw fs
                   (map (fun seg => lin2lin (sample_width seg) sw
                                            (get_array_of_samples seg))
                        segs))
  end.

(** [AudioSegment.silent(duration, frame_rate)]: 16-bit mono silence of
    [int(frame_rate * (duration / 1000.0))] frames. *)
Definition silent (duration : Z) (fs : Z) : t :=
  mono 2 fs
       (repeat 0 (Z.to_nat (Py.int (inject_Z fs * (inject_Z duration / 1000))))).

End AudioSegment.

Import AudioSegment.

(** ** impulcifer.py: numeric helpers *)

(** [to_float]: an integer array to floats in [-1..1]. Only [int32],
    [int16] and [uint8] arrays are rescaled. *)
Definition to_float (dt : Np.dtype) (x : list Z) : list Q :=
  let x := map inject_Z x in
  let x := match dt with
           | Np.Int32 => map (fun v => v / inject_Z (2 ^ 31))%Q x
           | _ => x
           end in
  match dt with
  | Np.Int16 => map (fun v => v / inject_Z (2 ^ 15))%Q x
  | Np.UInt8 => map (fun v => v / inject_Z (2 ^ 8) * 2 - 1)%Q x
  | _ => x
  end.

(** ** impulcifer.py: [crop_ir_tail] *)

(** The sliding-window RMS list built by the first loop: one entry per
    [j] in [range(1, len(response))], over the window
    [data[(j - 1) * n : j * n]]. *)
Definition window_rms (dt : Np.dtype) (window : list Z) : Np.float :=
  Np.sqrt (Np.mean (Np.square (to_float dt window))).

Definition rms_windows (response : AudioSegment.t) : list Np.float :=
  let data := get_array_of_samples response in
  let n := frame_rate response / 1000 in
  map (fun j => window_rms (array_type response)
                           (Py.slice data ((j - 1) * n) (j * n)))
      (Py.range 1 (len response)).

(** [np.max([np.mean(rms[-10:-1]) * 10, 10.0 ** (-60.0 / 10.0)])]. *)
Definition noise_floor (rms : list Np.float) : Np.float :=
  Np.max2 (Np.scale (Np.mean_f (Py.slice rms (-10) (-1))) 10)
          (Some (1 # 1000000)%Q).

(** The second loop: [j] runs over [js], the loop breaks on the first
    window above the noise floor, and [end] is the last [j] passed. *)
Fixpoint tail_scan (rms : list Np.float) (floor : Np.float)
                   (js : list Z) (end_ : Z) : Z :=
  match js with
  | [] => end_
  | j :: js' =>
      if Np.gtb (nth (Z.to_nat j) rms None) floor then end_
      else tail_scan rms floor js' j
  end.

Definition tail_end (rms : list Np.float) : Z :=
  tail_scan rms (noise_floor rms)
            (Py.range_down (Z.of_nat (length rms) - 1) 1) (-1).

Definition crop_ir_tail (response : AudioSegment.t) : result AudioSegment.t :=
  let rms := rms_windows response in
  getslice response None (Some (inject_Z (tail_end rms))).

(** ** scipy: [signal.find_peaks] *)

Module Signal.

(** The number of leading entries of [l], its last one excluded, that
    equal [v]: how far [i_ahead] walks along a plateau. *)
Fixpoint plateau (v : Q) (l : list Q) : nat :=
  match l with
  | y :: ((_ :: _) as l') => if Qeq_bool y v then S (plateau v l') else O
  | _ => O
  end.

(** [_local_maxima_1d]: [prev] is [x[i - 1]] and [rest] is [x[i:]]. An
    index [i < len(x) - 1] with [x[i - 1] < x[i]] starts a peak when the
    plateau at [x[i]] ends on a smaller value; the peak is the midpoint
    of the plateau. The source then jumps to the end of the plateau; the
    entries jumped over never satisfy [x[i - 1] < x[i]], so visiting
    them yields the same peaks. *)
Fixpoint local_maxima (prev : Q) (i : Z) (rest : list Q) : list Z :=
  match rest with
  | xi :: rest' =>
      match rest' with
      | [] => []
      | _ :: _ =>
          let others := local_maxima xi (i + 1) rest' in
          if Py.ltb prev xi then
            let k := plateau xi rest' in
            if Py.ltb (nth k rest' 0%Q) xi
            then (i + Z.of_nat k / 2) :: others
            else others
          else others
      end
  | [] => []
  end.

Definition local_maxima_1d (x : list Q) : list Z :=
  match x with
  | [] => []
  | x0 :: rest => local_maxima x0 1 rest
  end.

(** [find_peaks(x, height=h)[0]]: the local maxima of height at least
    [h]. *)
Definition find_peaks (x : list Q) (height : Q) : list Z :=
  filter (fun p => Qle_bool height (nth (Z.to_nat p) x 0%Q))
         (local_maxima_1d x).

End Signal.

(** ** impulcifer.py: constants *)

Definition CHANNELS : list string :=
  ["FL"; "FR"; "FC"; "BL"; "BR"; "SL"; "SR"]%string.

Definition IR_ORDER : list string :=
  flat_map (fun ch => [ch ++ "-left"; ch ++ "-right"]%string) CHANNELS.

Definition DELAYS (speaker : string) : option Q :=
  (if speaker =? "FL" then Some (1487 # 10000)%Q
   else if speaker =? "FR" then Some (1487 # 10000)%Q
   else if speaker =? "FC" then Some (2557 # 10000)%Q
   else if speaker =? "BL" then Some (1487 # 10000)%Q
   else if speaker =? "BR" then Some (1487 # 10000)%Q
   else if speaker =? "SL" then Some (417 # 10000)%Q
   else if speaker =? "SR" then Some (417 # 10000)%Q
   else None)%string.

(** ** impulcifer.py: [crop_ir_head] *)

(** [signal.find_peaks(to_float(np.array(seg.normalize()
    .get_array_of_samples())), height=0.1)[0]]. *)
Definition peaks (seg : AudioSegment.t) : list Z :=
  Signal.find_peaks
    (to_float (array_type seg) (get_array_of_samples (normalize seg)))
    (1 # 10).

(** [peaks[0] / seg.frame_rate * 1000]: the first peak in milliseconds. *)
Definition first_peak_ms (seg : AudioSegment.t) : result Q :=
  match peaks seg with
  | [] => Raise IndexError
  | p :: _ => Ok (inject_Z p / inject_Z (frame_rate seg) * 1000)%Q
  end.

(** [speaker[1] == c]. *)
Definition second_char_is (speaker : string) (c : Ascii.ascii) : result bool :=
  match String.get 1 speaker with
  | Some c' => Ok (Ascii.eqb c' c)
  | None => Raise IndexError
  end.

(** The crop to an integer number of samples at the end of
    [crop_ir_head]. *)
Definition crop_to_samples (seg : AudioSegment.t) : result AudioSegment.t :=
  let fs := inject_Z (frame_rate seg) in
  getslice seg None
    (Some ((inject_Z (Py.int (inject_Z (len seg) / 1000 * fs)) - 1) / fs * 1000)%Q).

Definition crop_ir_head (left right : AudioSegment.t) (speaker : string)
  : result (AudioSegment.t * AudioSegment.t) :=
  peak_left <- first_peak_ms left ;;
  peak_right <- first_peak_ms right ;;
  let itd := Qabs (peak_left - peak_right) in
  delay <- match DELAYS speaker with
           | Some d => Ok d
           | None => Raise (KeyError speaker)
           end ;;
  ' (left, right) <-
    (if Py.ltb peak_left peak_right then
       is_right <- second_char_is speaker "R"%char ;;
       if is_right : bool then
         Raise (ValueError
                  [speaker;
                   "impulse response has lower delay to left ear than to right."%string])
       else
         l <- getslice left (Some (peak_left - delay)%Q) None ;;
         r <- getslice right (Some (peak_right - (delay + itd))%Q) None ;;
         Ok (l, r)
     else
       is_left <- second_char_is speaker "L"%char ;;
       if is_left : bool then
         Raise (ValueError
                  [speaker;
                   "impulse response has lower delay to right ear than to left."%string])
       else
         l <- getslice left (Some (peak_left - (delay + itd))%Q) None ;;
         r <- getslice right (Some (peak_right - delay)%Q) None ;;
         Ok (l, r)) ;;
  left <- fade_in left (2 / inject_Z (frame_rate left) / 1000) ;;
  right <- fade_in right (2 / inject_Z (frame_rate right) / 1000) ;;
  left <- crop_to_samples left ;;
  right <- crop_to_samples right ;;
  Ok (left, right).

(** ** impulcifer.py: [zero_pad] *)

(** [np.zeros] refuses a negative length. *)
Definition zero_pad (seg : AudioSegment.t) (max_samples : Z) (fs : Z)
  : result AudioSegment.t :=
  let seg_samples := get_array_of_samples seg in
  let silence_length := max_samples - Z.of_nat (length seg_samples) in
  if silence_length <? 0
  then Raise (ValueError ["negative dimensions are not allowed"%string])
  else
    let silence := repeat 0 (Z.to_nat silence_length) in
    let zero_padded := seg_samples ++ silence in
    Ok (mono (sample_width seg) fs zero_padded).

(** ** impulcifer.py: [split_recording] *)

(** [xs[i]] for a nonnegative index. *)
Definition index {A : Type} (xs : list A) (i : Z) : result A :=
  match nth_error xs (Z.to_nat i) with
  | Some x => Ok x
  | None => Raise IndexError
  end.

(** The first loop: [n] times, the head of [remainder] up to [ms] becomes a
    column of mono segments and [remainder] moves on to [ms]. *)
Fixpoint split_columns (n : nat) (ms : Q) (remainder : AudioSegment.t)
  : result (list (list AudioSegment.t)) :=
  match n with
  | O => Ok []
  | S n' =>
      column <- getslice remainder None (Some ms) ;;
      remainder <- getslice remainder (Some ms) None ;;
      columns <- split_columns n' ms remainder ;;
      Ok (split_to_mono column :: columns)
  end.

(** The body of the second loop for one value of [i]: the left and right
    ear of every column. *)
Fixpoint column_pairs (columns : list (list AudioSegment.t)) (i : Z)
  : result (list AudioSegment.t) :=
  match columns with
  | [] => Ok []
  | column :: columns' =>
      l <- index column i ;;
      r <- index column (i + 1) ;;
      rest <- column_pairs columns' i ;;
      Ok (l :: r :: rest)
  end.

(** The second loop, [i] running over [is_]. *)
Fixpoint split_tracks (columns : list (list AudioSegment.t)) (is_ : list Z)
  : result (list AudioSegment.t) :=
  match is_ with
  | [] => Ok []
  | i :: is' =>
      here <- column_pairs columns i ;;
      rest <- split_tracks columns is' ;;
      Ok (here ++ rest)
  end.

(** [range(0, n, 2)]: the values of [i] of [while i < n: ...; i += 2]. *)
Definition evens_below (n : Z) : list Z :=
  map (fun k => 2 * Z.of_nat k) (seq 0 (Z.to_nat ((n + 1) / 2))).

Definition split_recording (recording test_signal : AudioSegment.t)
    (speakers : list string) (silence_length : Q) : result AudioSegment.t :=
  if channels recording / 2 =? 0 then Raise ZeroDivisionError
  else
    let n_speakers := Z.of_nat (length speakers) / (channels recording / 2) in
    let ms := (silence_length * 1000 + inject_Z (len test_signal))%Q in
    remainder <- getslice recording (Some (silence_length * 1000)%Q) None ;;
    columns <- split_columns (Z.to_nat n_speakers) ms remainder ;;
    tracks <- split_tracks columns (evens_below (channels recording)) ;;
    from_mono_audiosegments tracks.

(** ** impulcifer.py: [main] *)

(** The files written under [out/]: a WAV export or the lines of a CSV. *)
Inductive file : Type :=
| Wav (seg : AudioSegment.t)
| Csv (lines : list string).

(** A computation of [main]: it adds to the files written so far and
    returns a value or raises. *)
Definition io (A : Type) : Type :=
  list (string * file) -> list (string * file) * result A.

Definition ret {A : Type} (a : A) : io A := fun fs => (fs, Ok a).

Definition raise {A : Type} (e : exn) : io A := fun fs => (fs, Raise e).

Definition lift {A : Type} (r : result A) : io A := fun fs => (fs, r).

Definition bind_io {A B : Type} (m : io A) (k : A -> io B) : io B :=
  fun fs =>
    match m fs with
    | (fs', Ok a) => k a fs'
    | (fs', Raise e) => (fs', Raise e)
    end.

Notation "x <~ m ;; k" := (bind_io m (fun x => k))
  (at level 61, m at next level, right associativity).

(** [seg.export(path, format='wav')] and the [open(path, 'w')] of the
    equalization stage. *)
Definition export (path : string) (f : file) : io unit :=
  fun fs => (fs ++ [(path, f)], Ok tt).

(** The keyword arguments of [main]; [None] is Python's [None]. *)
Record args : Type := mk_args {
  measure : bool;
  preprocess : bool;
  deconvolve : bool;
  postprocess : bool;
  equalize : bool;
  recording : option string;
  test : option string;
  responses : option string;
  speakers : option (list string);
  silence_length : option Q;
  headphones : option string
}.

(** Truth values of the optional arguments: [None], the empty string, the
    empty list and zero are false. *)
Definition truthy_str (s : option string) : bool :=
  match s with
  | Some s => negb (s =? EmptyString)%string
  | None => false
  end.

Definition truthy_list {A : Type} (l : option (list A)) : bool :=
  match l with
  | Some (_ :: _) => true
  | _ => false
  end.

Definition truthy_float (x : option Q) : bool :=
  match x with
  | Some q => negb (Qeq_bool q 0)
  | None => false
  end.

(** The message of a parameter check:
    [Parameter "<name>" is required for <what>.] *)
Definition required (name what : string) : exn :=
  let quote := String (ascii_of_nat 34) EmptyString in
  TypeError ("Parameter " ++ quote ++ name ++ quote
             ++ " is required for " ++ what ++ ".")%string.

(** The block under [# Parameter checks]. *)
Definition parameter_checks (a : args) : result unit :=
  _ <- (if (preprocess a || postprocess a) && negb (truthy_list (speakers a))
        then Raise (required "speakers" "pre-processing")
        else Ok tt) ;;
  _ <- (if preprocess a then
          if negb (truthy_str (recording a) || measure a)
          then Raise (required "recording" "pre-processing when not measuring")
          else if negb (truthy_str (test a))
          then Raise (required "test" "pre-processing")
          else if negb (truthy_float (silence_length a))
          then Raise (required "silence_length" "pre-processing")
          else Ok tt
        else Ok tt) ;;
  _ <- (if deconvolve a then
          if negb (truthy_str (recording a))
          then Raise (required "recording" "deconvolution")
          else if negb (truthy_str (test a))
          then Raise (required "test" "deconvolution")
          else Ok tt
        else Ok tt) ;;
  _ <- (if postprocess a && negb (truthy_str (responses a) || deconvolve a)
        then Raise (required "responses" "post-processing when not doing deconvolution")
        else Ok tt) ;;
  if equalize a && negb (truthy_str (headphones a))
  then Raise (required "headphones" "equalization")
  else Ok tt.

(** [xs.index(x)]: the first position of [x]. *)
Fixpoint list_index (x : string) (xs : list string) : result Z :=
  match xs with
  | [] => Raise (ValueError [x; "is not in list"%string])
  | y :: ys =>
      if (y =? x)%string then Ok 0
      else (i <- list_index x ys ;; Ok (i + 1))
  end.

(** A loop that builds a list and stops at the first exception. *)
Fixpoint map_result {A B : Type} (f : A -> result B) (xs : list A)
  : result (list B) :=
  match xs with
  | [] => Ok []
  | x :: xs' =>
      y <- f x ;;
      ys <- map_result f xs' ;;
      Ok (y :: ys)
  end.

(** [max(xs)] of a list of integers. *)
Definition py_max (xs : list Z) : result Z :=
  match xs with
  | [] => Raise (ValueError ["max() arg is an empty sequence"%string])
  | x :: xs' => Ok (fold_left Z.max xs' x)
  end.

Definition hesuvi_order : list string :=
  ["FL-left"; "FL-right"; "SL-left"; "SL-right"; "BL-left"; "BL-right";
   "FC-left"; "FR-right"; "FR-left"; "SR-right"; "SR-left"; "BR-right";
   "BR-left"; "FC-right"]%string.

(** The body of the [while] loop of the post-processing stage for the pair
    [responses[i]], [responses[i + 1]]; [k] is [i // 2]. *)
Definition crop_pair (left right : AudioSegment.t) (k : nat)
  : result (list AudioSegment.t) :=
  if (rms left >? 2) && (rms right >? 2) then
    left <- crop_ir_tail left ;;
    right <- crop_ir_tail right ;;
    speaker <- index CHANNELS (Z.of_nat k) ;;
    ' (left, right) <- crop_ir_head left right speaker ;;
    Ok [left; right]
  else
    l1 <- getslice left None (Some 1%Q) ;;
    r1 <- getslice right None (Some 1%Q) ;;
    Ok [l1; r1].

(** The [while] loop, two responses at a time; a last response without a
    partner fails on [responses[i + 1]]. *)
Fixpoint crop_pairs (responses : list AudioSegment.t) (k : nat)
  : result (list AudioSegment.t) :=
  match responses with
  | [] => Ok []
  | r_i :: rest =>
      match rest with
      | [] => Raise IndexError
      | r_i1 :: rest' =>
          pair <- crop_pair r_i r_i1 k ;;
          others <- crop_pairs rest' (S k) ;;
          Ok (pair ++ others)
      end
  end.

(** The block under [# Zero pad to longest] of the post-processing
    stage. *)
Definition zero_pad_to_longest (cropped : list AudioSegment.t) (fs : Z)
  : result (list AudioSegment.t) :=
  max_samples <-
    py_max (map (fun ir => Z.of_nat (length (get_array_of_samples ir)))
                cropped) ;;
  map_result (fun response => zero_pad response max_samples fs) cropped.

Section Pipeline.

(** The collaborators outside the embedding: reading a WAV file, the
    frequency-domain [deconv] (a division of discrete Fourier transforms),
    and the lines of the headphone CSV computed from [fft]. *)
Variable from_wav : string -> result AudioSegment.t.
Variable deconv_frequency : list Q -> list Q -> list Q.
Variable headphones_lines : list Z -> Z -> result (list string).

(** The block under [# Read files]: an argument that is read is replaced
    by its segment. *)
Definition read_if (cond : bool) (path : option string)
  : io (option AudioSegment.t) :=
  match path with
  | Some p => if cond then (seg <~ lift (from_wav p) ;; ret (Some seg))
              else ret None
  | None => ret None
  end.

(** A local variable that is read: unbound, it raises. *)
Definition local {A : Type} (name : string) (v : option A) : io A :=
  match v with
  | Some x => ret x
  | None => raise (UnboundLocalError name)
  end.

(** The block under [# Pre-processing]. *)
Definition preprocess_stage (recording test : AudioSegment.t)
    (speakers : list string) (silence_length : Q) : io AudioSegment.t :=
  sweeps <~ lift (split_recording recording test speakers silence_length) ;;
  let sweeps := split_to_mono sweeps in
  let sweep_order :=
    flat_map (fun speaker => [speaker ++ "-left"; speaker ++ "-right"]%string)
             speakers in
  reordered <~
    lift (map_result
            (fun ch =>
               if negb (existsb (String.eqb ch) sweep_order) then
                 s0 <- index sweeps 0 ;;
                 Ok (silent (len s0) (frame_rate s0))
               else
                 i <- list_index ch sweep_order ;;
                 index sweeps i)
            IR_ORDER) ;;
  preprocessed <~ lift (from_mono_audiosegments reordered) ;;
  let preprocessed := normalize preprocessed in
  _ <~ export "out/preprocessed.wav" (Wav preprocessed) ;;
  let test_duplicated :=
    repeat test (Z.to_nat (channels preprocessed)) in
  tests <~ lift (from_mono_audiosegments test_duplicated) ;;
  _ <~ export "out/tests.wav" (Wav tests) ;;
  ret preprocessed.

(** The block under [# Deconvolution], reading the local variables
    [preprocessed] and [test]. *)
Definition deconvolve_stage (preprocessed test : option AudioSegment.t)
  : io AudioSegment.t :=
  preprocessed <~ local "preprocessed" preprocessed ;;
  test <~ local "test" test ;;
  if negb (frame_rate preprocessed =? frame_rate test)
  then raise (ValueError
                ["Sampling frequencies of test tone and recording must match!"%string])
  else
    first <~ lift (index (split_to_mono preprocessed) 0) ;;
    test_padded <~
      lift (zero_pad test
                     (Z.of_nat (length (get_array_of_samples first)))
                     (frame_rate preprocessed)) ;;
    let x := map inject_Z (get_array_of_samples test_padded) in
    let responses :=
      map (fun lines =>
             if rms lines >? 2 then
               let h := deconv_frequency
                          (map inject_Z (get_array_of_samples lines)) x in
               mono 4 (frame_rate preprocessed)
                    (map (fun v => Py.int (v * inject_Z (2 ^ 31))) h)
             else lines)
          (split_to_mono preprocessed) in
    responses <~ lift (from_mono_audiosegments responses) ;;
    _ <~ export "out/responses.wav" (Wav responses) ;;
    ret responses.

(** The block under [# Post-processing]. *)
Definition postprocess_stage (responses : AudioSegment.t) : io unit :=
  let fs := frame_rate responses in
  cropped <~ lift (crop_pairs (split_to_mono responses) 0) ;;
  padded <~ lift (zero_pad_to_longest cropped fs) ;;
  standard <~ lift (from_mono_audiosegments padded) ;;
  _ <~ export "out/hrir.wav" (Wav standard) ;;
  in_order <~
    lift (map_result (fun ch => i <- list_index ch IR_ORDER ;; index padded i)
                     hesuvi_order) ;;
  hesuvi <~ lift (from_mono_audiosegments in_order) ;;
  export "out/hesuvi.wav" (Wav hesuvi).

(** The block under [if equalize:]. *)
Fixpoint equalize_channels (fs : Z) (i : nat) (chs : list AudioSegment.t)
  : io unit :=
  match chs with
  | [] => ret tt
  | ch :: chs' =>
      lines <~ lift (headphones_lines (get_array_of_samples ch) fs) ;;
      _ <~ export (if Nat.eqb i 0 then "out/headphones-left.csv"
                   else "out/headphones-right.csv")
                  (Csv lines) ;;
      equalize_channels fs (S i) chs'
  end.

Definition equalize_stage (headphones : string) : io unit :=
  headphones <~ lift (from_wav headphones) ;;
  equalize_channels (frame_rate headphones) 0 (split_to_mono headphones).

(** [main]. The directory [out] is created when missing; the model
    keeps only the files written into it. *)
Definition main (a : args) : io unit :=
  if measure a
  then raise (NotImplementedError "Measurement is not yet implemented.")
  else
    _ <~ lift (parameter_checks a) ;;
    recording_seg <~ read_if (preprocess a) (recording a) ;;
    test_seg <~ read_if (preprocess a || deconvolve a) (test a) ;;
    responses_seg <~ read_if (postprocess a) (responses a) ;;
    preprocessed <~
      (if preprocess a then
         recording <~ local "recording" recording_seg ;;
         test <~ local "test" test_seg ;;
         p <~ preprocess_stage recording test
                (match speakers a with Some l => l | None => [] end)
                (match silence_length a with Some q => q | None => 0%Q end) ;;
         ret (Some p)
       else ret None) ;;
    responses_seg <~
      (if deconvolve a then
         r <~ deconvolve_stage preprocessed test_seg ;;
         ret (Some r)
       else ret responses_seg) ;;
    _ <~ (if postprocess a then
            responses <~ local "responses" responses_seg ;;
            postprocess_stage responses
          else ret tt) ;;
    if equalize a then
      match headphones a with
      | Some h => equalize_stage h
      | None => raise (TypeError "headphones")
      end
    else ret tt.

End Pipeline.

(** ** Vocabulary of the properties *)

(** The number of samples of a mono buffer. *)
Definition samples_of (ir : AudioSegment.t) : Z :=
  Z.of_nat (length (get_array_of_samples ir)).

(** Fourteen buffers of unequal lengths, as the cropping loop can leave
    them. *)
Definition cropped14 : list AudioSegment.t :=
  map (fun n => mono 4 48000 (repeat 7 n))
      [3; 5; 1; 1; 4; 2; 6; 6; 1; 1; 2; 9; 9; 8]%nat.

(** Window [i] of the RMS list is above the noise floor computed from
    that list: the test [rms[j] > noise_floor] of [crop_ir_tail]. *)
Definition exceeds (rms : list Np.float) (i : Z) : Prop :=
  Np.gtb (nth (Z.to_nat i) rms None) (noise_floor rms) = true.



(** Idempotence of tail cropping as the specification words it. *)
Definition tail_crop_idempotent (response : AudioSegment.t) : Prop :=
  forall once twice,
    crop_ir_tail response = Ok once ->
    crop_ir_tail once = Ok twice ->
    samples_of twice = samples_of once.

(** What the second loop of [crop_ir_tail] leaves in [end], for a list of
    window levels and a floor: [-1] when the list has fewer than three
    windows or its last window is above the floor; otherwise a window
    index from 2 on, such that no window from there to the last one is
    above the floor and the window just under it is, unless the scan ran
    out at window 2. *)
Definition above (rms : list Np.float) (floor : Np.float) (i : Z) : bool :=
  Np.gtb (nth (Z.to_nat i) rms None) floor.


(** The noise floor as the specification words it: over the last ten
    windows, [rms[-10:]]. *)
Definition noise_floor_of_last_ten (rms : list Np.float) : Np.float :=
  Np.max2 (Np.scale (Np.mean_f (Py.slice rms (-10) (Z.of_nat (length rms)))) 10)
          (Some (1 # 1000000)%Q).

(** Example buffers at 8 kHz with 32-bit samples: [ms] milliseconds at half
    of full scale, and [ms] milliseconds of silence. *)
Definition loud (ms : nat) : list Z := repeat (2 ^ 30) (8 * ms).
Definition quiet (ms : nat) : list Z := repeat 0 (8 * ms).


(** Five loud milliseconds, then 15 ms of silence. *)
Definition burst_then_silence : AudioSegment.t :=
  mono 4 8000 (loud 5 ++ quiet 15).

(** Ten milliseconds of silence, one loud millisecond, one of silence. *)
Definition late_burst : AudioSegment.t :=
  mono 4 8000 (quiet 10 ++ loud 1 ++ quiet 1).

(** The two outcomes of the cropping loop for one pair: both ears
    tail-cropped then head-aligned for channel [CHANNELS[k]], or both
    replaced by their first millisecond. *)
Definition cropped_and_aligned (left right : AudioSegment.t) (k : nat)
    (l' r' : AudioSegment.t) : Prop :=
  exists lt rt speaker,
    crop_ir_tail left = Ok lt /\ crop_ir_tail right = Ok rt
    /\ index CHANNELS (Z.of_nat k) = Ok speaker
    /\ crop_ir_head lt rt speaker = Ok (l', r').

Definition placeholders (left right l' r' : AudioSegment.t) : Prop :=
  getslice left None (Some 1%Q) = Ok l' /\ getslice right None (Some 1%Q) = Ok r'.

(** The gate as the specification words it: with at least one ear above
    the threshold, the pair is cropped and aligned. *)
Definition crops_unless_both_silent (left right : AudioSegment.t) (k : nat)
  : Prop :=
  rms left > 2 \/ rms right > 2 ->
  exists l' r',
    crop_pair left right k = Ok [l'; r']
    /\ cropped_and_aligned left right k l' r'.

(** Example buffers at 8 kHz with 16-bit samples: a click after [p]
    samples of silence in a buffer of [n] samples, and silence. *)
Definition click (p n : nat) : list Z :=
  repeat 0 p ++ [20000; 10000; -5000] ++ repeat 0 (n - p - 3).

Definition click_at_10 : AudioSegment.t := mono 2 8000 (click 10 32).
Definition click_at_14 : AudioSegment.t := mono 2 8000 (click 14 32).
Definition silence_4ms : AudioSegment.t := mono 2 8000 (repeat 0 32).

(** Stand-ins for the collaborators of [main]: every path holds fourteen
    channels of 4 ms of silence, deconvolution returns the recording, the
    headphone CSV is empty. *)
Definition wav_silence14 (path : string) : result AudioSegment.t :=
  Ok (make 2 8000 (repeat (repeat 0 32%nat) 14)).

Definition no_deconv (y x : list Q) : list Q := y.

Definition no_lines (x : list Z) (fs : Z) : result (list string) := Ok [].

(** [main(deconvolve=True, recording='recording.wav', test='test.wav')]. *)
Definition deconvolve_only : args :=
  mk_args false false true false false
          (Some "recording.wav"%string) (Some "test.wav"%string)
          None None None None.

(** [main(postprocess=True, responses='responses.wav')]. *)
Definition postprocess_only : args :=
  mk_args false false false true false
          None None (Some "responses.wav"%string) None None None.

(** [main(postprocess=True, responses='responses.wav', speakers=['FL'])]. *)
Definition postprocess_with_speakers : args :=
  mk_args false false false true false
          None None (Some "responses.wav"%string) (Some ["FL"%string])
          None None.

(** The alternate entry as the specification words it: post-processing
    alone, given a responses file, is the post-processing stage on that
    file. *)
Definition enters_at_cropping
    (from_wav : string -> result AudioSegment.t)
    (deconv_frequency : list Q -> list Q -> list Q)
    (headphones_lines : list Z -> Z -> result (list string))
    (a : args) : Prop :=
  forall path seg,
    responses a = Some path -> from_wav path = Ok seg ->
    main from_wav deconv_frequency headphones_lines a []
    = postprocess_stage seg [].


(** A synthetic recording: every track is [gap] samples of silence, then
    each copy of the stimulus followed by [gap] samples of silence;
    [copies] holds, per track, the copies in the order of the columns. *)
Definition synthetic_track (gap : nat) (copies : list (list Z)) : list Z :=
  repeat 0 gap ++ flat_map (fun s => s ++ repeat 0 gap) copies.

Definition synthetic_recording (sw fs : Z) (gap : nat)
    (copies : list (list (list Z))) : AudioSegment.t :=
  make sw fs (map (synthetic_track gap) copies).

(** The excerpt expected for column [c] of track [ch], and the expected
    output: for each pair of tracks, for each column, left ear then right
    ear. *)
Definition excerpt (gap : nat) (copies : list (list (list Z))) (ch c : nat)
  : list Z :=
  nth c (nth ch copies []) [] ++ repeat 0 gap.

Definition expected_excerpts (gap : nat) (copies : list (list (list Z)))
    (n : nat) : list (list Z) :=
  flat_map (fun p =>
              flat_map (fun c => [excerpt gap copies (2 * p) c;
                                  excerpt gap copies (2 * p + 1) c])
                       (seq 0 n))
           (seq 0 (length copies / 2)).

(** The binary64 number nearest to a positive rational below [2^1024],
    ties to even: what Python computes for the quotient or the product of
    two floats whose exact value is that rational. *)
Definition binary64 (x : Q) : Q :=
  let k := Z.log2 (Qfloor (x * inject_Z (2 ^ 1074))) - 1074 in
  let e := Z.max (k - 52) (-1074) in
  (inject_Z (Py.round (x / Qpower 2 e)) * Qpower 2 e)%Q.



(** A stimulus of 3 ms at 1 kHz, and what four tracks capture of it in two
    columns. *)
Definition stimulus_3ms : AudioSegment.t := mono 2 1000 [1; 2; 3].

Definition four_tracks_two_columns : list (list (list Z)) :=
  [[[1; 2; 3]; [4; 5; 6]];
   [[11; 12; 13]; [14; 15; 16]];
   [[21; 22; 23]; [24; 25; 26]];
   [[31; 32; 33]; [34; 35; 36]]].





(** Where [crop_ir_head] puts each ear: the configured delay for the near
    ear, the delay plus the inter-aural time difference for the far ear. *)
Definition left_target (pl pr delay : Q) : Q :=
  if Py.ltb pl pr then delay else (delay + Qabs (pl - pr))%Q.

Definition right_target (pl pr delay : Q) : Q :=
  if Py.ltb pl pr then (delay + Qabs (pl - pr))%Q else delay.

(** The alignment as the specification words it, for a pair that reaches
    head cropping (both ears above the level threshold of [crop_pair], an
    onset detected in each, [crop_ir_head] returning), with the onsets
    detected again in the cropped buffers. *)
Definition onset_within_one_sample (seg : AudioSegment.t) (target : Q) : Prop :=
  exists onset,
    first_peak_ms seg = Ok onset
    /\ (Qabs (onset - target) < 1000 / inject_Z (frame_rate seg))%Q.

Definition head_aligned (left right : AudioSegment.t) (speaker : string) : Prop :=
  forall pl pr delay l' r',
    rms left > 2 -> rms right > 2 ->
    first_peak_ms left = Ok pl -> first_peak_ms right = Ok pr ->
    DELAYS speaker = Some delay ->
    crop_ir_head left right speaker = Ok (l', r') ->
    onset_within_one_sample l' (left_target pl pr delay)
    /\ onset_within_one_sample r' (right_target pl pr delay).

(** Clicks too early for the configured delays. *)
Definition click_at_1 : AudioSegment.t := mono 2 8000 (click 1 32).
Definition click_at_5 : AudioSegment.t := mono 2 8000 (click 5 32).

(** ** Vocabulary of the further properties *)

(** The values an array of a given dtype can hold. *)
Definition dtype_range (dt : Np.dtype) (s : Z) : Prop :=
  match dt with
  | Np.Int8 => - 2 ^ 7 <= s < 2 ^ 7
  | Np.Int16 => - 2 ^ 15 <= s < 2 ^ 15
  | Np.Int32 => - 2 ^ 31 <= s < 2 ^ 31
  | Np.UInt8 => 0 <= s < 2 ^ 8
  end.

(** The range that [to_float] documents, [-1..1]; the upper bound is
    never reached. *)
Definition in_unit_range (v : Q) : Prop := (-1 <= v < 1)%Q.

(** The array that [crop_ir_head] searches for peaks:
    [to_float(np.array(seg.normalize().get_array_of_samples()))]. *)
Definition normalized (seg : AudioSegment.t) : list Q :=
  to_float (array_type seg) (get_array_of_samples (normalize seg)).

(** What cropping keeps of a buffer: its sample width and its frame rate,
    and a mono buffer stays mono. *)
Definition same_format (before after : AudioSegment.t) : Prop :=
  sample_width after = sample_width before
  /\ frame_rate after = frame_rate before
  /\ (channels before = 1 -> channels after = 1).

(** Fourteen response tracks at 8 kHz, silent but for the pair of the
    front right speaker, whose click reaches the right ear first; and a
    stereo file with the pair of the front left speaker only. *)
Definition responses14 : AudioSegment.t :=
  make 2 8000 ([repeat 0 32; repeat 0 32; click 14 32; click 10 32]
                 ++ repeat (repeat 0 32) 10).

Definition responses2 : AudioSegment.t :=
  make 2 8000 [click 10 32; click 14 32].

(** What pre-processing returns for the recording of four speakers on
    four tracks used in the examples: the eight sweeps in the standard
    order, silence for the three speakers not recorded, normalised. *)
Definition four_speakers_preprocessed : AudioSegment.t :=
  normalize
    (make 2 1000
       [[1; 2; 3; 0; 0]; [11; 12; 13; 0; 0]; [4; 5; 6; 0; 0];
        [14; 15; 16; 0; 0]; [0; 0; 0; 0; 0]; [0; 0; 0; 0; 0];
        [21; 22; 23; 0; 0]; [31; 32; 33; 0; 0]; [24; 25; 26; 0; 0];
        [34; 35; 36; 0; 0]; [0; 0; 0; 0; 0]; [0; 0; 0; 0; 0];
        [0; 0; 0; 0; 0]; [0; 0; 0; 0; 0]]).

(** The names of the recorded sweeps, [sweep_order] in the pre-processing
    stage: two per speaker given. *)
Definition sweep_order (speakers : list string) : list string :=
  flat_map (fun speaker => [speaker ++ "-left"; speaker ++ "-right"]%string)
           speakers.

(** * Properties *)

(** ** Packing *)

Section Packing.

Lemma fold_left_max_ge (xs : list Z) (x : Z) :
  x <= fold_left Z.max xs x.
Proof.
  revert x; induction xs as [|y ys IH]; intros x; simpl; [lia|].
  specialize (IH (Z.max x y)); lia.
Qed.

Lemma fold_left_max_upper (xs : list Z) (x y : Z) :
  In y xs -> y <= fold_left Z.max xs x.
Proof.
  revert x; induction xs as [|z zs IH]; intros x Hin; simpl in *; [tauto|].
  destruct Hin as [->|Hin]; [|now apply IH].
  pose proof (fold_left_max_ge zs (Z.max x y)); lia.
Qed.

Lemma fold_left_max_attained (xs : list Z) (x : Z) :
  fold_left Z.max xs x = x \/ In (fold_left Z.max xs x) xs.
Proof.
  revert x; induction xs as [|z zs IH]; intros x; simpl; [now left|].
  destruct (IH (Z.max x z)) as [H|H]; [|now right; right].
  rewrite H. destruct (Z.max_spec x z) as [[_ ->]|[_ ->]]; auto.
Qed.

(** [max] returns an element of its list that bounds all the others. *)
Lemma py_max_spec (xs : list Z) (m : Z) :
  py_max xs = Ok m -> In m xs /\ forall y, In y xs -> y <= m.
Proof.
  destruct xs as [|x xs]; simpl; [discriminate|].
  intros [= <-]; split.
  - destruct (fold_left_max_attained xs x) as [->|H]; auto.
  - intros y [<-|Hy]; [apply fold_left_max_ge|now apply fold_left_max_upper].
Qed.

(** Padding a list of buffers none of which is longer than [m]. *)
Lemma map_zero_pad (m fs : Z) (cropped : list AudioSegment.t) :
  (forall ir, In ir cropped -> samples_of ir <= m) ->
  exists padded,
    map_result (fun response => zero_pad response m fs) cropped = Ok padded
    /\ Forall2 (fun ir p =>
                  p = mono (sample_width ir) fs
                        (get_array_of_samples ir
                           ++ repeat 0 (Z.to_nat (m - samples_of ir))))
               cropped padded.
Proof.
  induction cropped as [|ir irs IH]; intros Hle; simpl.
  - eexists; split; [reflexivity|constructor].
  - destruct IH as (ps & -> & HF); [intros; apply Hle; now right|].
    unfold zero_pad. fold (samples_of ir).
    pose proof (Hle ir (or_introl eq_refl)) as H.
    destruct (Z.ltb_spec (m - samples_of ir) 0) as [?|_]; [lia|].
    simpl. eexists; split; [reflexivity|]. constructor; auto.
Qed.

End Packing.

(** C9. After the packing step every buffer has the same number of
    samples, the maximum [m] of the numbers of samples before padding; each
    buffer is its former self followed by zeros only, in its own sample
    width. The relation [Forall2] pairs the buffers one to one, so fourteen
    buffers go in and fourteen come out. *)
Theorem packing_length_invariant (cropped : list AudioSegment.t) (fs : Z) :
  cropped <> [] ->
  exists padded m,
    zero_pad_to_longest cropped fs = Ok padded
    /\ In m (map samples_of cropped)
    /\ (forall ir, In ir cropped -> samples_of ir <= m)
    /\ Forall2 (fun ir p =>
                  samples_of p = m
                  /\ get_array_of_samples p
                     = get_array_of_samples ir
                         ++ repeat 0 (Z.to_nat (m - samples_of ir))
                  /\ sample_width p = sample_width ir
                  /\ frame_rate p = fs)
               cropped padded.
Proof.
  intros Hne. unfold zero_pad_to_longest.
  change (fun ir => Z.of_nat (length (get_array_of_samples ir))) with samples_of.
  destruct (py_max (map samples_of cropped)) as [m|e] eqn:Hmax.
  2:{ destruct cropped; [congruence|discriminate]. }
  apply py_max_spec in Hmax as [Hin Hub].
  assert (Hle : forall ir, In ir cropped -> samples_of ir <= m).
  { intros ir H. apply Hub, in_map, H. }
  destruct (map_zero_pad m fs cropped Hle) as (padded & Hp & HF).
  exists padded, m. simpl. repeat split; auto.
  clear Hp Hin Hub Hne.
  induction HF as [|ir p irs ps -> _ IH]; constructor.
  - pose proof (Hle ir (or_introl eq_refl)).
    unfold samples_of in *. cbn [get_array_of_samples mono tracks hd
                                 sample_width frame_rate].
    rewrite length_app, repeat_length.
    repeat split; lia.
  - apply IH. intros; apply Hle; now right.
Qed.

Lemma packing_length_invariant_witness :
  exists padded m,
    zero_pad_to_longest cropped14 48000 = Ok padded
    /\ In m (map samples_of cropped14)
    /\ (forall ir, In ir cropped14 -> samples_of ir <= m)
    /\ Forall2 (fun ir p =>
                  samples_of p = m
                  /\ get_array_of_samples p
                     = get_array_of_samples ir
                         ++ repeat 0 (Z.to_nat (m - samples_of ir))
                  /\ sample_width p = sample_width ir
                  /\ frame_rate p = 48000)
               cropped14 padded.
Proof.
  apply (packing_length_invariant cropped14 48000). discriminate.
Defined.

(** ** Arithmetic of positions and slices *)

Lemma ltb_spec (x y : Q) : reflect (x < y)%Q (Py.ltb x y).
Proof.
  unfold Py.ltb. destruct (x ?= y)%Q eqn:H; constructor.
  - apply Qeq_alt in H. rewrite H. apply Qlt_irrefl.
  - now apply Qlt_alt.
  - apply Qgt_alt in H. apply Qle_not_lt, Qlt_le_weak, H.
Qed.

Lemma int_floor (q : Q) : (0 <= q)%Q -> Py.int q = Qfloor q.
Proof.
  destruct q as [n d]. unfold Py.int, Qfloor, Qle. simpl. intros H.
  rewrite Z.mul_1_r in H. apply Z.quot_div_nonneg; lia.
Qed.

Lemma int_nonpos (q : Q) : (q <= 0)%Q -> Py.int q <= 0.
Proof.
  destruct q as [n d]. unfold Py.int, Qle. simpl. intros H.
  rewrite Z.mul_1_r in H.
  apply Z.quot_le_upper_bound. lia. lia.
Qed.

Lemma floor_lt (q : Q) (z : Z) : (q < inject_Z z)%Q -> Qfloor q < z.
Proof.
  intros H. pose proof (Qfloor_le q).
  apply Z.lt_nge. intros Hc. rewrite Zle_Qle in Hc. lra.
Qed.

Lemma floor_le (q : Q) (z : Z) : (q <= inject_Z z)%Q -> Qfloor q <= z.
Proof.
  intros H. pose proof (Qfloor_le q).
  rewrite Zle_Qle. lra.
Qed.

Lemma floor_ge (q : Q) (z : Z) : (inject_Z z <= q)%Q -> z <= Qfloor q.
Proof.
  intros H. pose proof (Qlt_floor q).
  apply Z.lt_succ_r. rewrite Zlt_Qlt. unfold Z.succ.
  rewrite inject_Z_plus in *. change (inject_Z 1) with 1%Q in *. lra.
Qed.

Lemma round_bounds (q : Q) :
  (q - (1 # 2) <= inject_Z (Py.round q) <= q + (1 # 2))%Q.
Proof.
  unfold Py.round.
  pose proof (Qfloor_le q) as Hl. pose proof (Qlt_floor q) as Hu.
  rewrite inject_Z_plus in Hu. change (inject_Z 1) with 1%Q in Hu.
  destruct (q - inject_Z (Qfloor q) ?= 1 # 2)%Q eqn:Hc.
  - apply Qeq_alt in Hc. destruct (Z.even (Qfloor q));
      rewrite ?inject_Z_plus; change (inject_Z 1) with 1%Q; lra.
  - apply Qlt_alt in Hc. lra.
  - apply Qgt_alt in Hc. rewrite inject_Z_plus.
    change (inject_Z 1) with 1%Q. lra.
Qed.

Lemma round_nonneg (q : Q) : (0 <= q)%Q -> 0 <= Py.round q.
Proof.
  intros H. unfold Py.round.
  assert (0 <= Qfloor q) by (apply floor_ge; exact H).
  destruct (_ ?= _)%Q; [destruct (Z.even _)|..]; lia.
Qed.

(* frames vs. len *)
Lemma len_bounds (seg : t) :
  0 < frame_rate seg ->
  let r := (inject_Z (frame_rate seg) / 1000)%Q in
  ((inject_Z (len seg) - (1 # 2)) * r <= inject_Z (frames seg)
   <= (inject_Z (len seg) + (1 # 2)) * r)%Q /\ 0 <= len seg.
Proof.
  intros Hfs r. unfold len.
  set (N := inject_Z (frames seg)).
  assert (Hf : (0 < inject_Z (frame_rate seg))%Q).
  { change 0%Q with (inject_Z 0). now rewrite <- Zlt_Qlt. }
  assert (Hr : (0 < r)%Q) by (unfold r; apply Qlt_shift_div_l; lra).
  assert (HN : (0 <= N)%Q).
  { unfold N, frames. change 0%Q with (inject_Z 0). rewrite <- Zle_Qle. lia. }
  assert (Hq : (1000 * (N / inject_Z (frame_rate seg)) * r == N)%Q).
  { unfold r. field. lra. }
  pose proof (round_bounds (1000 * (N / inject_Z (frame_rate seg)))) as [H1 H2].
  split.
  - split.
    + setoid_replace N with (1000 * (N / inject_Z (frame_rate seg)) * r)%Q at 2
        by (symmetry; exact Hq).
      apply Qmult_le_compat_r; lra.
    + setoid_replace N with (1000 * (N / inject_Z (frame_rate seg)) * r)%Q at 1
        by (symmetry; exact Hq).
      apply Qmult_le_compat_r; lra.
  - apply round_nonneg.
    apply Qmult_le_0_compat; [lra|].
    apply Qle_shift_div_l; lra.
Qed.

Lemma rate_pos (fs : Z) : 0 < fs -> (0 < inject_Z fs / 1000)%Q.
Proof.
  intros H. apply Qlt_shift_div_l; [lra|].
  rewrite Qmult_0_l. change 0%Q with (inject_Z 0). now rewrite <- Zlt_Qlt.
Qed.

Lemma floor_ms (e fs : Z) :
  Qfloor (inject_Z e * (inject_Z fs / 1000)) = e * fs / 1000.
Proof.
  rewrite Zdiv_Qdiv. apply Qfloor_comp.
  rewrite inject_Z_mult. change (inject_Z 1000) with 1000%Q. field.
Qed.

Lemma min_le (x y : Q) : (x <= y)%Q -> Py.min x y = x.
Proof.
  intros H. unfold Py.min. destruct (ltb_spec y x); [exfalso; lra|reflexivity].
Qed.

Lemma min_gt (x y : Q) : (y < x)%Q -> Py.min x y = y.
Proof.
  intros H. unfold Py.min. destruct (ltb_spec y x); [reflexivity|contradiction].
Qed.

Lemma slice_from_0 {A} (l : list A) (j : Z) :
  0 <= j -> Py.slice l 0 j = firstn (Z.to_nat j) l.
Proof.
  intros Hj. unfold Py.slice, Py.clamp.
  destruct (Z.ltb_spec 0 0); [lia|]. destruct (Z.ltb_spec j 0); [lia|].
  rewrite (Z.min_l 0) by lia. simpl. rewrite Z.sub_0_r.
  destruct (Z.le_ge_cases j (Z.of_nat (length l))).
  - now rewrite Z.min_l.
  - rewrite Z.min_r by auto. rewrite Nat2Z.id.
    rewrite !firstn_all2; auto; lia.
Qed.

Lemma parse_nonneg (seg : t) (v : Q) :
  0 < frame_rate seg -> (0 <= v)%Q ->
  parse_position seg v = Qfloor (v * (inject_Z (frame_rate seg) / 1000)).
Proof.
  intros Hfs Hv. unfold parse_position.
  destruct (ltb_spec v 0); [exfalso; lra|].
  unfold frame_count_ms. apply int_floor.
  apply Qmult_le_0_compat; [assumption|]. apply Qlt_le_weak, rate_pos, Hfs.
Qed.

(** [seg[:stop]] when the stop position falls on a frame [ef] that the
    segment holds: the first [ef] frames, nothing missing. *)
Lemma getslice_head_frames (seg : t) (stop : Q) (ef : Z) :
  0 < frame_rate seg ->
  parse_position seg (Py.min stop (inject_Z (len seg))) = ef ->
  0 <= ef <= frames seg ->
  getslice seg None (Some stop)
  = Ok (make (sample_width seg) (frame_rate seg)
             (map (firstn (Z.to_nat ef)) (tracks seg))).
Proof.
  intros Hfs Hparse [Hef0 HefN]. unfold getslice.
  destruct (len_bounds seg Hfs) as [_ HL].
  assert (HLq : (0 <= inject_Z (len seg))%Q).
  { change 0%Q with (inject_Z 0). now rewrite <- Zle_Qle. }
  rewrite (min_le 0 _ HLq), Hparse.
  rewrite (parse_nonneg seg 0 Hfs) by lra.
  assert (H0 : Qfloor (0 * (inject_Z (frame_rate seg) / 1000)) = 0).
  { rewrite (Qfloor_comp _ (inject_Z 0)) by ring. apply Qfloor_Z. }
  rewrite H0.
  assert (Hdata : map (fun tr => Py.slice tr 0 ef) (tracks seg)
                  = map (firstn (Z.to_nat ef)) (tracks seg)).
  { apply map_ext. intros tr. now apply slice_from_0. }
  rewrite Hdata.
  assert (Hgot : Z.of_nat (length (hd [] (map (firstn (Z.to_nat ef)) (tracks seg)))) = ef).
  { unfold frames in HefN. destruct (tracks seg) as [|tr trs]; simpl in *.
    - lia.
    - rewrite length_firstn. lia. }
  rewrite Hgot.
  replace (ef - 0 - ef) with 0 by lia. reflexivity.
Qed.

(** A position at least half a millisecond before the rounded length
    falls on a frame that the segment holds. *)
Lemma frame_within (seg : t) (e : Q) :
  0 < frame_rate seg -> (0 <= e)%Q ->
  (e <= inject_Z (len seg) - (1 # 2))%Q ->
  0 <= Qfloor (e * (inject_Z (frame_rate seg) / 1000)) <= frames seg.
Proof.
  intros Hfs He Hle.
  destruct (len_bounds seg Hfs) as [[Hlo Hhi] HL].
  pose proof (rate_pos _ Hfs) as Hr.
  set (r := (inject_Z (frame_rate seg) / 1000)%Q) in *.
  split.
  - apply floor_ge. apply Qmult_le_0_compat; lra.
  - apply floor_le.
    apply Qle_trans with ((inject_Z (len seg) - (1 # 2)) * r)%Q; auto.
    apply Qmult_le_compat_r; lra.
Qed.

(** ** Tail cropping *)

Lemma range_down_cons (a b : Z) :
  b < a -> Py.range_down a b = a :: Py.range_down (a - 1) b.
Proof.
  intros H. unfold Py.range_down.
  replace (Z.to_nat (a - b)) with (S (Z.to_nat (a - 1 - b))) by lia.
  simpl. rewrite Z.sub_0_r. f_equal.
  rewrite <- seq_shift, map_map. apply map_ext. intros k. lia.
Qed.

Lemma range_down_nil (a b : Z) : a <= b -> Py.range_down a b = [].
Proof.
  intros H. unfold Py.range_down.
  replace (Z.to_nat (a - b)) with O by lia. reflexivity.
Qed.

(** The scan from window [a] down to window [b + 1]: either it stops at
    once and leaves [end] as it was, or it ends on [e], no window from [e]
    to [a] is above the floor, and the window under [e] is above the floor
    unless the scan ran out at [b + 1]. *)
Lemma tail_scan_spec (rms : list Np.float) (fl : Np.float) (n : nat) :
  forall a b e0, Z.to_nat (a - b) = n ->
    let above i := Np.gtb (nth (Z.to_nat i) rms None) fl = true in
    let e := tail_scan rms fl (Py.range_down a b) e0 in
    (e = e0 /\ (a <= b \/ above a))
    \/ (b < e <= a
        /\ (forall i, e <= i <= a -> ~ above i)
        /\ (e = b + 1 \/ above (e - 1))).
Proof.
  induction n as [|n IH]; intros a b e0 Hn above e.
  - left. subst e. rewrite range_down_nil by lia. simpl. split; [reflexivity|lia].
  - assert (Hab : b < a) by lia.
    subst e. rewrite range_down_cons by assumption. simpl.
    destruct (Np.gtb (nth (Z.to_nat a) rms None) fl) eqn:Ha.
    + left. split; [reflexivity|right; exact Ha].
    + right.
      assert (Hna : ~ above a) by (unfold above; rewrite Ha; discriminate).
      destruct (IH (a - 1) b a ltac:(lia)) as [[He Hc]|(Hr & Hno & Hlast)].
      * rewrite He. split; [lia|]. split.
        -- intros i Hi. replace i with a by lia. exact Hna.
        -- destruct Hc as [Hc|Hc]; [left; lia|right; exact Hc].
      * split; [lia|]. split; [|exact Hlast].
        intros i Hi. destruct (Z.eq_dec i a) as [->|Hne]; [exact Hna|].
        apply Hno. lia.
Qed.

Lemma length_rms_windows (response : t) :
  Z.of_nat (length (rms_windows response)) = Z.max 0 (len response - 1).
Proof.
  unfold rms_windows, Py.range. rewrite length_map, length_map, length_seq. lia.
Qed.

Lemma tail_end_spec (response : t) :
  let rms := rms_windows response in
  let m := Z.max 0 (len response - 1) in
  let e := tail_end rms in
  (e = -1 /\ (m <= 2 \/ exceeds rms (m - 1)))
  \/ (2 <= e <= m - 1
      /\ (forall i, e <= i <= m - 1 -> ~ exceeds rms i)
      /\ (e = 2 \/ exceeds rms (e - 1))).
Proof.
  intros rms m e. subst e. unfold tail_end, exceeds.
  fold rms. replace (Z.of_nat (length rms)) with m
    by (symmetry; apply length_rms_windows).
  destruct (tail_scan_spec rms (noise_floor rms) (Z.to_nat (m - 1 - 1))
                           (m - 1) 1 (-1) eq_refl)
    as [[He Hc]|(Hr & Hno & Hlast)].
  - left. split; [exact He|]. destruct Hc; [left; lia|right; assumption].
  - right. split; [lia|]. split; [exact Hno|]. exact Hlast.
Qed.

Lemma int_opp (q : Q) : Py.int (- q) = - Py.int q.
Proof.
  destruct q as [n d]. unfold Py.int. simpl. apply Z.quot_opp_l. lia.
Qed.

Lemma parse_whole_ms (seg : t) (e : Z) :
  0 < frame_rate seg -> 0 <= e ->
  parse_position seg (inject_Z e) = e * frame_rate seg / 1000.
Proof.
  intros Hfs He. rewrite parse_nonneg; auto.
  - apply floor_ms.
  - change 0%Q with (inject_Z 0). now rewrite <- Zle_Qle.
Qed.

(** [seg[:-1]] counts from the rounded length. *)
Lemma parse_minus_one (seg : t) :
  0 < frame_rate seg -> 1 <= len seg ->
  parse_position seg (inject_Z (-1)) = (len seg - 1) * frame_rate seg / 1000.
Proof.
  intros Hfs HL. unfold parse_position.
  destruct (ltb_spec (inject_Z (-1)) 0) as [_|H]; [|exfalso; apply H; reflexivity].
  unfold frame_count_ms.
  assert (Heq : ((inject_Z (len seg) - Qabs (inject_Z (-1)))
                 * (inject_Z (frame_rate seg) / 1000)
                 == inject_Z (len seg - 1) * (inject_Z (frame_rate seg) / 1000))%Q).
  { replace (len seg - 1) with (len seg + (-1)) by lia.
    rewrite inject_Z_plus. change (Qabs (inject_Z (-1))) with 1%Q.
    change (inject_Z (-1)) with (- (1))%Q. ring. }
  rewrite int_floor.
  - rewrite (Qfloor_comp _ _ Heq). apply floor_ms.
  - rewrite Heq. apply Qmult_le_0_compat.
    + change 0%Q with (inject_Z 0). rewrite <- Zle_Qle. lia.
    + apply Qlt_le_weak, rate_pos, Hfs.
Qed.

Lemma zle_q (a b : Z) : a <= b -> (inject_Z a <= inject_Z b)%Q.
Proof. now rewrite <- Zle_Qle. Qed.

Lemma whole_ms_within (seg : t) (e : Z) :
  0 < frame_rate seg -> 0 <= e <= len seg - 1 ->
  0 <= e * frame_rate seg / 1000 <= frames seg.
Proof.
  intros Hfs He. rewrite <- floor_ms. apply frame_within; auto.
  - apply (zle_q 0 e); lia.
  - apply Qle_trans with (inject_Z (len seg - 1)); [apply zle_q; lia|].
    replace (len seg - 1) with (len seg + (-1)) by lia.
    rewrite inject_Z_plus. change (inject_Z (-1)) with (- (1))%Q. lra.
Qed.

Lemma int_nonpos_floor (q : Q) : (q <= 0)%Q -> Py.int q = - Qfloor (- q).
Proof.
  intros H. rewrite <- (int_floor (- q)) by lra.
  rewrite int_opp. lia.
Qed.

Lemma int_comp (p q : Q) : (p == q)%Q -> Py.int p = Py.int q.
Proof.
  intros H. destruct (Qlt_le_dec p 0).
  - rewrite !int_nonpos_floor by lra. f_equal. apply Qfloor_comp. now rewrite H.
  - rewrite !int_floor by lra. now apply Qfloor_comp.
Qed.

(** An empty buffer in milliseconds is cut to nothing by [seg[:-1]]. *)
Lemma getslice_minus_one_empty (sw fs : Z) (data : list Z) :
  0 < fs -> len (mono sw fs data) = 0 ->
  getslice (mono sw fs data) None (Some (inject_Z (-1))) = Ok (mono sw fs []).
Proof.
  intros Hfs HL.
  pose proof (len_bounds (mono sw fs data) Hfs) as [[_ Hhi] _].
  pose proof (rate_pos _ Hfs) as Hr.
  unfold getslice. rewrite HL in *. change (inject_Z 0) with 0%Q in *.
  rewrite (min_le 0 0) by lra.
  rewrite (min_le (inject_Z (-1)) 0) by (apply (zle_q (-1) 0); lia).
  rewrite (parse_nonneg _ 0%Q) by (auto; lra).
  assert (H0 : Qfloor (0 * (inject_Z (frame_rate (mono sw fs data)) / 1000)) = 0).
  { rewrite (Qfloor_comp _ (inject_Z 0)) by ring. apply Qfloor_Z. }
  rewrite H0.
  unfold parse_position.
  destruct (ltb_spec (inject_Z (-1)) 0) as [_|H]; [|exfalso; apply H; reflexivity].
  rewrite HL. unfold frame_count_ms.
  cbn [frame_rate mono tracks sample_width frames hd map] in *.
  set (r := (inject_Z fs / 1000)%Q) in *.
  set (ef := Py.int ((inject_Z 0 - Qabs (inject_Z (-1))) * r)).
  assert (Hef : ef = - Qfloor r).
  { unfold ef. rewrite (int_comp _ (- r)).
    - rewrite int_opp, int_floor by lra. reflexivity.
    - change (Qabs (inject_Z (-1))) with 1%Q. change (inject_Z 0) with 0%Q. ring. }
  unfold frames in Hhi. cbn [mono tracks hd] in Hhi.
  assert (HN : (inject_Z (Z.of_nat (length data)) <= (1 # 2) * r)%Q) by lra.
  assert (Hfl : 0 <= Qfloor r) by (apply floor_ge; change (inject_Z 0) with 0%Q; lra).
  assert (Hsum : ef + Z.of_nat (length data) <= 0).
  { rewrite Hef. destruct (Z.eq_dec (Z.of_nat (length data)) 0) as [->|Hne]; [lia|].
    assert (Z.of_nat (length data) <= Qfloor r); [|lia].
    apply floor_ge.
    assert ((1 <= inject_Z (Z.of_nat (length data)))%Q) by (apply (zle_q 1); lia).
    lra. }
  assert (Hslice : Py.slice data 0 ef = []).
  { unfold Py.slice, Py.clamp. simpl (0 <? 0).
    rewrite (Z.min_l 0) by lia.
    destruct (Z.ltb_spec ef 0).
    - rewrite Z.max_r by lia. reflexivity.
    - rewrite Z.min_l by lia. replace ef with 0 by lia. reflexivity. }
  rewrite Hslice. simpl (Z.of_nat (length [])).
  destruct (Z.eqb_spec (ef - 0 - 0) 0); [reflexivity|].
  destruct (Py.gtb _ _) eqn:Hg.
  - exfalso. unfold Py.gtb in Hg. destruct (ltb_spec (2 * r) (inject_Z (ef - 0 - 0))) as [Hlt|]; [|discriminate].
    assert (inject_Z (ef - 0 - 0) <= 0)%Q by (apply (zle_q _ 0); lia). lra.
  - reflexivity.
Qed.

Lemma getslice_whole_ms (sw fs : Z) (data : list Z) (e : Z) :
  0 < fs -> 0 <= e <= len (mono sw fs data) - 1 ->
  getslice (mono sw fs data) None (Some (inject_Z e))
  = Ok (mono sw fs (firstn (Z.to_nat (e * fs / 1000)) data)).
Proof.
  intros Hfs He.
  rewrite (getslice_head_frames (mono sw fs data) (inject_Z e) (e * fs / 1000));
    auto.
  - rewrite min_le by (apply zle_q; lia). now apply (parse_whole_ms (mono sw fs data)).
  - now apply (whole_ms_within (mono sw fs data)).
Qed.

Lemma getslice_minus_one (sw fs : Z) (data : list Z) :
  0 < fs ->
  getslice (mono sw fs data) None (Some (inject_Z (-1)))
  = Ok (mono sw fs
          (firstn (Z.to_nat ((len (mono sw fs data) - 1) * fs / 1000)) data)).
Proof.
  intros Hfs. set (seg := mono sw fs data).
  destruct (len_bounds seg Hfs) as [_ HL].
  destruct (Z.eq_dec (len seg) 0) as [H0|Hne].
  - unfold seg in *. rewrite getslice_minus_one_empty by auto. rewrite H0.
    replace (Z.to_nat ((0 - 1) * fs / 1000)) with O; [reflexivity|].
    assert ((0 - 1) * fs / 1000 < 0); [|lia].
    apply Z.div_lt_upper_bound; lia.
  - rewrite (getslice_head_frames seg (inject_Z (-1)) ((len seg - 1) * fs / 1000));
      auto.
    + rewrite min_le by (apply zle_q; lia).
      apply (parse_minus_one seg); auto. lia.
    + apply (whole_ms_within seg); auto. lia.
Qed.

(** What [crop_ir_tail] returns on a mono buffer: the first [e]
    milliseconds, where [e] is fixed by the scan. *)
Lemma crop_ir_tail_spec (sw fs : Z) (data : list Z) :
  0 < fs ->
  let response := mono sw fs data in
  let rms := rms_windows response in
  exists e,
    crop_ir_tail response
    = Ok (mono sw fs (firstn (Z.to_nat (e * fs / 1000)) data))
    /\ ((len response <= 3 /\ e = len response - 1)
        \/ (4 <= len response /\ 2 <= e <= len response - 1
            /\ (forall i, e <= i <= len response - 2 -> ~ exceeds rms i)
            /\ (e = 2 \/ exceeds rms (e - 1)))).
Proof.
  intros Hfs response rms. unfold crop_ir_tail. fold rms.
  destruct (len_bounds response Hfs) as [_ HL].
  pose proof (tail_end_spec response) as Hspec. cbv zeta in Hspec. fold rms in Hspec.
  destruct Hspec as [[He Hc]|(Hr & Hno & Hlast)].
  - exists (len response - 1). rewrite He. split.
    + apply getslice_minus_one, Hfs.
    + destruct (Z.le_gt_cases (len response) 3) as [H3|H3]; [left; lia|].
      right. rewrite Z.max_r in Hc by lia.
      destruct Hc as [Hc|Hc]; [lia|].
      repeat split; try lia.
      right. replace (len response - 1 - 1) with (len response - 1 - 1) by lia.
      exact Hc.
  - exists (tail_end rms). split.
    + apply getslice_whole_ms; auto. fold response. lia.
    + right. destruct (Z.le_gt_cases (len response) 1); [lia|].
      rewrite Z.max_r in * by lia.
      repeat split; try lia.
      * intros i Hi. apply Hno. lia.
      * exact Hlast.
Qed.




(** C5, at a failing input. The last measured window of [late_burst] is
    the loud one. The code averages [rms[-10:-1]], nine windows that leave
    it out, and gets the fixed floor; over the last ten windows the floor
    is ten times their mean, one half. With the code's floor the loud
    window stops the scan at once and 11 ms are kept. *)
Theorem noise_floor_leaves_out_last_window :
  noise_floor (rms_windows late_burst) = Some (1 # 1000000)%Q
  /\ (exists q, noise_floor_of_last_ten (rms_windows late_burst) = Some q
                /\ (q == 1 # 2)%Q)
  /\ length (Py.slice (rms_windows late_burst) (-10) (-1)) = 9%nat
  /\ crop_ir_tail late_burst = Ok (mono 4 8000 (quiet 10 ++ loud 1)).
Proof.
  split; [vm_compute; reflexivity|].
  split; [eexists; split; [vm_compute; reflexivity|reflexivity]|].
  split; vm_compute; reflexivity.
Qed.

(** C6, counterexample. Cropping [burst_then_silence] leaves its five loud
    milliseconds; cropping those again leaves two: the floor is now ten
    times the level of the buffer itself. *)
Lemma tail_crop_twice_shortens : ~ tail_crop_idempotent burst_then_silence.
Proof.
  intros H.
  specialize (H (mono 4 8000 (loud 5)) (mono 4 8000 (loud 2))).
  assert (H1 : crop_ir_tail burst_then_silence = Ok (mono 4 8000 (loud 5)))
    by (vm_compute; reflexivity).
  assert (H2 : crop_ir_tail (mono 4 8000 (loud 5)) = Ok (mono 4 8000 (loud 2)))
    by (vm_compute; reflexivity).
  specialize (H H1 H2). clear H1 H2. vm_compute in H. discriminate H.
Qed.

(** C6, amended. Tail cropping never lengthens: on a mono buffer it
    returns a prefix of the buffer, and a second application returns a
    prefix of that prefix. *)
Theorem tail_crop_never_lengthens (sw fs : Z) (data : list Z) :
  0 < fs ->
  exists k1 k2,
    crop_ir_tail (mono sw fs data) = Ok (mono sw fs (firstn k1 data))
    /\ crop_ir_tail (mono sw fs (firstn k1 data))
       = Ok (mono sw fs (firstn k2 (firstn k1 data)))
    /\ (length (firstn k2 (firstn k1 data)) <= length (firstn k1 data)
        <= length data)%nat.
Proof.
  intros Hfs.
  destruct (crop_ir_tail_spec sw fs data Hfs) as (e1 & H1 & _).
  destruct (crop_ir_tail_spec sw fs (firstn (Z.to_nat (e1 * fs / 1000)) data) Hfs)
    as (e2 & H2 & _).
  eexists _, _. split; [exact H1|]. split; [exact H2|].
  rewrite !length_firstn. lia.
Qed.

Lemma tail_crop_never_lengthens_witness :
  exists k1 k2,
    crop_ir_tail (mono 4 8000 (loud 5 ++ quiet 15))
    = Ok (mono 4 8000 (firstn k1 (loud 5 ++ quiet 15)))
    /\ crop_ir_tail (mono 4 8000 (firstn k1 (loud 5 ++ quiet 15)))
       = Ok (mono 4 8000 (firstn k2 (firstn k1 (loud 5 ++ quiet 15))))
    /\ (length (firstn k2 (firstn k1 (loud 5 ++ quiet 15)))
        <= length (firstn k1 (loud 5 ++ quiet 15))
        <= length (loud 5 ++ quiet 15))%nat.
Proof.
  apply (tail_crop_never_lengthens 4 8000 (loud 5 ++ quiet 15)). lia.
Defined.

(** ** The gate of the cropping loop *)

(** [seg[:stop]] with a nonnegative stop never raises: at most half a
    millisecond of frames can be missing. *)
Lemma getslice_stop_total (seg : t) (stop : Q) :
  0 < frame_rate seg -> (0 <= stop)%Q ->
  exists r, getslice seg None (Some stop) = Ok r.
Proof.
  intros Hfs Hstop. unfold getslice.
  destruct (len_bounds seg Hfs) as [[Hlo Hhi] HL].
  pose proof (rate_pos _ Hfs) as Hr.
  assert (HLq : (0 <= inject_Z (len seg))%Q) by (apply (zle_q 0); exact HL).
  rewrite (min_le 0 _ HLq).
  rewrite (parse_nonneg seg 0 Hfs) by lra.
  assert (H0 : Qfloor (0 * (inject_Z (frame_rate seg) / 1000)) = 0).
  { rewrite (Qfloor_comp _ (inject_Z 0)) by ring. apply Qfloor_Z. }
  rewrite H0.
  set (e := Py.min stop (inject_Z (len seg))).
  assert (He : (0 <= e <= inject_Z (len seg))%Q).
  { unfold e, Py.min. destruct (ltb_spec (inject_Z (len seg)) stop); lra. }
  rewrite (parse_nonneg seg e Hfs) by lra.
  unfold frame_count_ms.
  set (r := (inject_Z (frame_rate seg) / 1000)%Q) in *.
  set (ef := Qfloor (e * r)).
  assert (Hef0 : 0 <= ef).
  { apply floor_ge. apply Qmult_le_0_compat; lra. }
  assert (Hefq : (inject_Z ef <= inject_Z (len seg) * r)%Q).
  { apply Qle_trans with (e * r)%Q; [apply Qfloor_le|].
    apply Qmult_le_compat_r; lra. }
  destruct (_ =? 0); [eexists; reflexivity|].
  destruct (Py.gtb _ _) eqn:Hg; [|eexists; reflexivity].
  exfalso. unfold Py.gtb in Hg.
  match type of Hg with Py.ltb ?a ?b = true =>
    destruct (ltb_spec a b) as [Hlt|]; [|discriminate] end.
  assert (Hdata : map (fun tr => Py.slice tr 0 ef) (tracks seg)
                  = map (firstn (Z.to_nat ef)) (tracks seg)).
  { apply map_ext. intros tr. now apply slice_from_0. }
  rewrite Hdata in Hlt.
  assert (Hgot : ef - 0 - Z.of_nat (length (hd [] (map (firstn (Z.to_nat ef)) (tracks seg))))
                 <= Z.max 0 (ef - frames seg)).
  { unfold frames. destruct (tracks seg) as [|tr trs]; simpl.
    - lia.
    - rewrite length_firstn. lia. }
  apply zle_q in Hgot.
  assert (Hmax : (inject_Z (Z.max 0 (ef - frames seg)) <= (1 # 2) * r)%Q).
  { destruct (Z.max_spec 0 (ef - frames seg)) as [[_ ->]|[_ ->]].
    - replace (ef - frames seg) with (ef + - frames seg) by lia.
      rewrite inject_Z_plus, inject_Z_opp. lra.
    - change (inject_Z 0) with 0%Q. lra. }
  lra.
Qed.

Lemma bind_ok {A B} (m : result A) (k : A -> result B) (b : B) :
  bind m k = Ok b -> exists a, m = Ok a /\ k a = Ok b.
Proof. destruct m; simpl; [eauto|discriminate]. Qed.

(** What one pass of the loop body leaves. *)
Lemma crop_pair_spec (left right : t) (k : nat) (pair : list t) :
  crop_pair left right k = Ok pair ->
  exists l' r',
    pair = [l'; r']
    /\ if (rms left >? 2) && (rms right >? 2)
       then cropped_and_aligned left right k l' r'
       else placeholders left right l' r'.
Proof.
  unfold crop_pair. destruct ((rms left >? 2) && (rms right >? 2)); intros H.
  - apply bind_ok in H as (lt & Hlt & H).
    apply bind_ok in H as (rt & Hrt & H).
    apply bind_ok in H as (sp & Hsp & H).
    apply bind_ok in H as ([l' r'] & Hh & H).
    injection H as <-. exists l', r'. split; [reflexivity|].
    exists lt, rt, sp. auto.
  - apply bind_ok in H as (l1 & Hl & H).
    apply bind_ok in H as (r1 & Hr & H).
    injection H as <-. exists l1, r1. split; [reflexivity|]. split; assumption.
Qed.

(** C7, amended. In a run of the cropping loop that completes, the pair
    at positions [2 * i] and [2 * i + 1] is tail-cropped and head-aligned
    exactly when both ears have an RMS level above 2; as soon as one ear is
    at or below 2 both outputs are the placeholders [left[:1]] and
    [right[:1]], the first millisecond of each buffer. *)
Theorem crop_pairs_gate (i : nat) :
  forall (responses : list t) (k : nat) (cropped : list t) (left right : t),
    crop_pairs responses k = Ok cropped ->
    nth_error responses (2 * i) = Some left ->
    nth_error responses (2 * i + 1) = Some right ->
    exists l' r',
      nth_error cropped (2 * i) = Some l'
      /\ nth_error cropped (2 * i + 1) = Some r'
      /\ if (rms left >? 2) && (rms right >? 2)
         then cropped_and_aligned left right (k + i) l' r'
         else placeholders left right l' r'.
Proof.
  induction i as [|i IH]; intros responses k cropped left right Hc Hl Hr.
  - destruct responses as [|a [|b rest]]; try discriminate.
    simpl in Hl, Hr. injection Hl as ->. injection Hr as ->.
    simpl in Hc.
    apply bind_ok in Hc as (pair & Hp & Hc).
    apply bind_ok in Hc as (others & _ & Hc). injection Hc as <-.
    apply crop_pair_spec in Hp as (l' & r' & -> & Hp).
    exists l', r'. rewrite Nat.add_0_r. auto.
  - destruct responses as [|a [|b rest]]; try discriminate.
    replace (2 * S i)%nat with (S (S (2 * i))) in * by lia.
    simpl in Hl, Hr, Hc.
    apply bind_ok in Hc as (pair & Hp & Hc).
    apply bind_ok in Hc as (others & Ho & Hc). injection Hc as <-.
    apply crop_pair_spec in Hp as (a' & b' & -> & _).
    destruct (IH rest (S k) others left right Ho Hl Hr) as (l' & r' & H1 & H2 & H3).
    exists l', r'. simpl. replace (k + S i)%nat with (S k + i)%nat by lia. auto.
Qed.

Lemma crop_pairs_gate_witness :
  exists l' r',
    nth_error [mono 2 8000 (repeat 0 8); mono 2 8000 (repeat 0 8)] (2 * 0)
    = Some l'
    /\ nth_error [mono 2 8000 (repeat 0 8); mono 2 8000 (repeat 0 8)] (2 * 0 + 1)
       = Some r'
    /\ if (rms click_at_10 >? 2) && (rms silence_4ms >? 2)
       then cropped_and_aligned click_at_10 silence_4ms (0 + 0) l' r'
       else placeholders click_at_10 silence_4ms l' r'.
Proof.
  apply (crop_pairs_gate 0 [click_at_10; silence_4ms] 0
           [mono 2 8000 (repeat 0 8); mono 2 8000 (repeat 0 8)]
           click_at_10 silence_4ms).
  - vm_compute; reflexivity.
  - reflexivity.
  - reflexivity.
Defined.

(** C7, counterexample. The left ear holds a click (RMS level 4050), the
    right ear is silent: one ear is above the threshold, yet the pair is
    not cropped and aligned; both ears come out as placeholders (of eight
    samples each, one millisecond at 8 kHz). *)
Lemma one_silent_ear_bypasses_cropping :
  ~ crops_unless_both_silent click_at_10 silence_4ms 0.
Proof.
  intros H.
  assert (Hrms : rms click_at_10 > 2 \/ rms silence_4ms > 2)
    by (left; vm_compute; reflexivity).
  destruct (H Hrms) as (l' & r' & _ & lt & rt & sp & H1 & H2 & H3 & H4).
  clear H Hrms.
  vm_compute in H1. injection H1 as <-.
  vm_compute in H2. injection H2 as <-.
  vm_compute in H3. injection H3 as <-.
  vm_compute in H4. discriminate H4.
Qed.

(** ** Direction check *)

(** With the left onset not strictly before the right one, a speaker whose
    name has [L] as second letter is refused. *)
Lemma left_speaker_needs_left_strictly_first
    (left right : AudioSegment.t) (speaker : string) (pl pr d : Q) :
  first_peak_ms left = Ok pl -> first_peak_ms right = Ok pr ->
  DELAYS speaker = Some d ->
  String.get 1 speaker = Some "L"%char ->
  ~ (pl < pr)%Q ->
  crop_ir_head left right speaker
  = Raise (ValueError
             [speaker;
              "impulse response has lower delay to right ear than to left."%string]).
Proof.
  intros Hl Hr Hd Hc Hnlt. unfold crop_ir_head.
  rewrite Hl, Hr, Hd. cbn [bind].
  destruct (ltb_spec pl pr); [contradiction|].
  unfold second_char_is. rewrite Hc. reflexivity.
Qed.

(** With the left onset strictly before the right one, a speaker whose
    name has [R] as second letter is refused. *)
Lemma right_speaker_needs_left_not_first
    (left right : AudioSegment.t) (speaker : string) (pl pr d : Q) :
  first_peak_ms left = Ok pl -> first_peak_ms right = Ok pr ->
  DELAYS speaker = Some d ->
  String.get 1 speaker = Some "R"%char ->
  (pl < pr)%Q ->
  crop_ir_head left right speaker
  = Raise (ValueError
             [speaker;
              "impulse response has lower delay to left ear than to right."%string]).
Proof.
  intros Hl Hr Hd Hc Hlt. unfold crop_ir_head.
  rewrite Hl, Hr, Hd. cbn [bind].
  destruct (ltb_spec pl pr); [|contradiction].
  unfold second_char_is. rewrite Hc. reflexivity.
Qed.

(** C2, at a failing input. Both ears hold the same response, so the left
    onset is no later than the right one (both at 1.25 ms). For the
    left-side speaker FL the pair is refused, with a message that names the
    channel and says the delay to the right ear is lower; for the
    right-side speaker FR the same tie is accepted. *)
Theorem tie_refused_for_left_speaker :
  first_peak_ms click_at_10 = Ok (10000 # 8000)%Q
  /\ crop_ir_head click_at_10 click_at_10 "FL"
     = Raise (ValueError
                ["FL"%string;
                 "impulse response has lower delay to right ear than to left."%string])
  /\ exists l r, crop_ir_head click_at_10 click_at_10 "FR" = Ok (l, r).
Proof.
  split; [vm_compute; reflexivity|].
  split; [vm_compute; reflexivity|].
  eexists _, _. vm_compute. reflexivity.
Qed.

(** ** Entry points of [main] *)

Lemma bind_io_lift_ok {A B : Type} (a : A) (k : A -> io B) files :
  bind_io (lift (Ok a)) k files = k a files.
Proof. reflexivity. Qed.

(** C3, at the failing inputs. Deconvolution requested without
    pre-processing: the parameter checks pass, the test signal is read,
    and the stage stops on its first statement, which reads the variable
    [preprocessed] that only the pre-processing stage assigns. The
    recording is never read and nothing is written. *)
Theorem deconvolve_alone_reads_unbound_preprocessed
    (from_wav : string -> result AudioSegment.t)
    (deconv_frequency : list Q -> list Q -> list Q)
    (headphones_lines : list Z -> Z -> result (list string))
    (a : args) (files : list (string * file)) :
  measure a = false -> preprocess a = false -> deconvolve a = true ->
  parameter_checks a = Ok tt ->
  (forall path, exists seg, from_wav path = Ok seg) ->
  main from_wav deconv_frequency headphones_lines a files
  = (files, Raise (UnboundLocalError "preprocessed")).
Proof.
  intros Hm Hp Hd Hchecks Hwav. unfold main.
  rewrite Hm, Hp, Hd, Hchecks. rewrite bind_io_lift_ok.
  unfold bind_io at 1. unfold read_if at 1.
  destruct (recording a); cbn [ret].
  all: unfold bind_io at 1; unfold read_if at 1; cbn [orb].
  all: destruct (test a) as [tpath|];
    [destruct (Hwav tpath) as [tseg ->]|]; cbn [lift bind_io ret].
  all: unfold bind_io at 1; unfold read_if at 1.
  all: destruct (responses a) as [rpath|];
    [destruct (postprocess a);
       [destruct (Hwav rpath) as [rseg ->]|]|]; reflexivity.
Qed.

Lemma deconvolve_alone_reads_unbound_preprocessed_witness :
  main wav_silence14 no_deconv no_lines deconvolve_only []
  = ([], Raise (UnboundLocalError "preprocessed")).
Proof.
  apply (deconvolve_alone_reads_unbound_preprocessed
           wav_silence14 no_deconv no_lines deconvolve_only []).
  - reflexivity.
  - reflexivity.
  - reflexivity.
  - reflexivity.
  - intros path. eexists. reflexivity.
Defined.

(** C10, counterexample. Post-processing alone with a responses file of
    fourteen silent channels: the post-processing stage on that file runs to
    completion and writes both outputs, but [main] stops before it on the
    check of [speakers], a parameter the stage never reads. *)
Lemma postprocess_alone_asks_for_speakers :
  ~ enters_at_cropping wav_silence14 no_deconv no_lines postprocess_only.
Proof.
  intros H.
  specialize (H "responses.wav"%string
                (make 2 8000 (repeat (repeat 0 32%nat) 14)) eq_refl eq_refl).
  vm_compute in H. discriminate H.
Qed.

(** C10, amended. With post-processing alone requested and a readable
    responses file named, [main] is the post-processing stage on that
    file, entered directly at the cropping loop, provided a non-empty
    speaker list is given as well; without one it raises the configuration
    error of pre-processing before anything is read or written. *)
Theorem postprocess_alone_enters_at_cropping
    (from_wav : string -> result AudioSegment.t)
    (deconv_frequency : list Q -> list Q -> list Q)
    (headphones_lines : list Z -> Z -> result (list string))
    (a : args) (path : string) (seg : AudioSegment.t)
    (files : list (string * file)) :
  measure a = false -> preprocess a = false -> deconvolve a = false ->
  equalize a = false -> postprocess a = true ->
  responses a = Some path -> path <> EmptyString ->
  from_wav path = Ok seg ->
  main from_wav deconv_frequency headphones_lines a files
  = if truthy_list (speakers a)
    then postprocess_stage seg files
    else (files, Raise (required "speakers" "pre-processing")).
Proof.
  intros Hm Hp Hd He Hpost Hr Hne Hwav. unfold main, parameter_checks.
  rewrite Hm, Hp, Hd, He, Hpost, Hr. cbn [orb andb negb].
  destruct (truthy_list (speakers a)); cbn [negb bind]; [|reflexivity].
  assert (Htruthy : truthy_str (Some path) = true).
  { unfold truthy_str. destruct (String.eqb_spec path EmptyString);
      [contradiction|reflexivity]. }
  rewrite Htruthy. cbn [orb negb bind].
  rewrite bind_io_lift_ok.
  unfold bind_io at 1. unfold read_if at 1.
  destruct (recording a); cbn [ret].
  all: unfold bind_io at 1; unfold read_if at 1.
  all: destruct (test a); cbn [ret].
  all: unfold bind_io at 1; unfold read_if at 1; rewrite Hwav.
  all: unfold local, bind_io, lift, ret; cbv beta iota.
  all: destruct (postprocess_stage seg files) as [files' [[]|e]]; reflexivity.
Qed.

Lemma postprocess_alone_enters_at_cropping_witness :
  main wav_silence14 no_deconv no_lines postprocess_with_speakers []
  = if truthy_list (speakers postprocess_with_speakers)
    then postprocess_stage (make 2 8000 (repeat (repeat 0 32%nat) 14)) []
    else ([], Raise (required "speakers" "pre-processing")).
Proof.
  apply (postprocess_alone_enters_at_cropping
           wav_silence14 no_deconv no_lines postprocess_with_speakers
           "responses.wav"%string).
  - reflexivity.
  - reflexivity.
  - reflexivity.
  - reflexivity.
  - reflexivity.
  - reflexivity.
  - discriminate.
  - reflexivity.
Defined.

(** ** Segmentation *)


Lemma ltb_comp (x x' y y' : Q) :
  (x == x')%Q -> (y == y')%Q -> Py.ltb x y = Py.ltb x' y'.
Proof.
  intros Hx Hy. destruct (ltb_spec x y), (ltb_spec x' y'); auto;
    exfalso; rewrite Hx, Hy in *; contradiction.
Qed.







Lemma fold_max_const (x : Z) (xs : list Z) :
  0 <= x -> xs <> [] -> Forall (eq x) xs -> fold_right Z.max 0 xs = x.
Proof.
  intros Hx Hne Hall. induction Hall as [|y ys <- _ IH]; [congruence|].
  simpl. destruct ys as [|z zs]; simpl in *; [lia|].
  rewrite IH by discriminate. lia.
Qed.

Lemma lin2lin_same (sw : Z) (data : list Z) : lin2lin sw sw data = data.
Proof.
  unfold lin2lin. rewrite Z.ltb_irrefl, Z.sub_diag. simpl.
  rewrite <- (map_id data) at 2. apply map_ext. intros v. lia.
Qed.

(** Mono segments of one width, one rate and one length make a
    multichannel segment with their samples as tracks. *)
Lemma from_mono_uniform (sw fs : Z) (k : nat) (datas : list (list Z)) :
  0 <= sw -> 0 <= fs -> datas <> [] ->
  Forall (fun d => length d = k) datas ->
  from_mono_audiosegments (map (mono sw fs) datas) = Ok (make sw fs datas).
Proof.
  intros Hsw Hfs Hne Hlen.
  assert (Hd : map (mono sw fs) datas <> []).
  { destruct datas; [congruence|discriminate]. }
  assert (Hd' : forall (f : list Z -> Z), map f datas <> []).
  { intros f. destruct datas; [congruence|discriminate]. }
  unfold from_mono_audiosegments.
  remember (map (mono sw fs) datas) as segs eqn:Hsegs.
  destruct segs as [|s0 ss]; [congruence|]. rewrite Hsegs in *. clear Hsegs.
  rewrite !map_map. cbn [sample_width frame_rate mono].
  assert (Hconst : forall c : Z, Forall (eq c) (map (fun _ : list Z => c) datas)).
  { intros c. apply Forall_forall. intros x Hx.
    apply in_map_iff in Hx as (? & Hx & _). now subst. }
  rewrite (fold_max_const sw (map (fun _ => sw) datas))
    by first [assumption|apply Hd'|apply Hconst].
  rewrite (fold_max_const fs (map (fun _ => fs) datas))
    by first [assumption|apply Hd'|apply Hconst].
  assert (Hmono : forallb (fun seg => channels seg =? 1) (map (mono sw fs) datas) = true).
  { apply forallb_forall. intros seg Hin. apply in_map_iff in Hin as (d & <- & _). reflexivity. }
  rewrite Hmono. cbn [negb].
  assert (Hfc : fold_right Z.max 0 (map (fun x => frames (mono sw fs x)) datas)
                = Z.of_nat k).
  { apply fold_max_const; [lia|apply Hd'|].
    apply Forall_forall. intros x Hx. apply in_map_iff in Hx as (d & <- & Hin).
    rewrite Forall_forall in Hlen. unfold frames. simpl. now rewrite (Hlen d Hin). }
  rewrite Hfc.
  assert (Hall : forallb (fun seg => frames seg =? Z.of_nat k) (map (mono sw fs) datas) = true).
  { apply forallb_forall. intros seg Hin. apply in_map_iff in Hin as (d & <- & Hin).
    rewrite Forall_forall in Hlen. unfold frames. simpl. rewrite (Hlen d Hin).
    apply Z.eqb_refl. }
  rewrite Hall. cbn [negb]. rewrite andb_false_r.
  f_equal. f_equal. rewrite <- (map_id datas) at 2. apply map_ext.
  intros d. simpl. apply lin2lin_same.
Qed.














(** ** Head cropping *)

Lemma length_slice {A} (l : list A) (i j : Z) :
  0 <= i <= j ->
  Z.of_nat (length (Py.slice l i j))
  = Z.min j (Z.of_nat (length l)) - Z.min i (Z.of_nat (length l)).
Proof.
  intros Hij. unfold Py.slice, Py.clamp.
  destruct (Z.ltb_spec i 0); [lia|]. destruct (Z.ltb_spec j 0); [lia|].
  rewrite length_firstn, length_skipn. lia.
Qed.

(** C1, at the failing inputs. Left onset at sample 1 (0.125 ms), right
    onset at sample 5 (0.625 ms), speaker FL whose configured delay is
    0.1487 ms. Both ears are above the level threshold, a peak is found in
    each and the direction check passes. The near onset is earlier than
    the configured delay, so the start of both slices, [peak - delay] and
    [peak - (delay + itd)], is -0.0237 ms: pydub counts a negative start
    from the end of the buffer and keeps the last frame only, and what the
    fade-in and the crop to samples leave of one frame is empty. Both ears
    come out empty, with no onset left in either. *)
Theorem onset_before_delay_is_cut_out :
  rms click_at_1 > 2 /\ rms click_at_5 > 2
  /\ peaks click_at_1 = [1] /\ peaks click_at_5 = [5]
  /\ crop_ir_head click_at_1 click_at_5 "FL"
     = Ok (mono 2 8000 [], mono 2 8000 [])
  /\ ~ head_aligned click_at_1 click_at_5 "FL".
Proof.
  assert (Hrl : rms click_at_1 > 2) by (vm_compute; reflexivity).
  assert (Hrr : rms click_at_5 > 2) by (vm_compute; reflexivity).
  assert (Hcrop : crop_ir_head click_at_1 click_at_5 "FL"
                  = Ok (mono 2 8000 [], mono 2 8000 []))
    by (vm_compute; reflexivity).
  split; [exact Hrl|]. split; [exact Hrr|].
  split; [vm_compute; reflexivity|]. split; [vm_compute; reflexivity|].
  split; [exact Hcrop|].
  intros H.
  assert (Hl : exists pl, first_peak_ms click_at_1 = Ok pl)
    by (eexists; vm_compute; reflexivity).
  assert (Hr : exists pr, first_peak_ms click_at_5 = Ok pr)
    by (eexists; vm_compute; reflexivity).
  destruct Hl as [pl Hl]. destruct Hr as [pr Hr].
  destruct (H pl pr (1487 # 10000)%Q _ _ Hrl Hrr Hl Hr eq_refl Hcrop)
    as [(onset & Honset & _) _].
  clear H Hl Hr Hcrop. vm_compute in Honset. discriminate Honset.
Qed.

(** * Further properties of the code *)

(** ** [to_float] *)

Lemma to_float_length (dt : Np.dtype) (x : list Z) :
  length (to_float dt x) = length x.
Proof.
  unfold to_float. destruct dt; repeat rewrite length_map; reflexivity.
Qed.

Lemma scaled_in_unit_range (s k : Z) :
  0 < k -> - k <= s < k -> in_unit_range (inject_Z s / inject_Z k).
Proof.
  intros Hk [Hlo Hhi]. unfold in_unit_range.
  assert (Hkq : (0 < inject_Z k)%Q) by (rewrite Zlt_Qlt in Hk; exact Hk).
  split.
  - apply Qle_shift_div_l; [exact Hkq|].
    rewrite Zle_Qle, inject_Z_opp in Hlo. lra.
  - apply Qlt_shift_div_r; [exact Hkq|].
    rewrite Zlt_Qlt in Hhi. lra.
Qed.

(** X1. [to_float] on an [int16], [int32] or [uint8] array whose
    entries are in the range of the dtype: as many floats come out as
    samples went in, each in [-1, 1). *)
Theorem to_float_unit_range (dt : Np.dtype) (x : list Z) :
  dt <> Np.Int8 ->
  Forall (dtype_range dt) x ->
  length (to_float dt x) = length x
  /\ Forall in_unit_range (to_float dt x).
Proof.
  intros Hdt Hx. split; [apply to_float_length|].
  unfold to_float. destruct dt; [congruence| | |].
  - rewrite map_map. apply Forall_map.
    eapply Forall_impl; [|exact Hx]. intros s Hs.
    apply scaled_in_unit_range; [lia|exact Hs].
  - rewrite map_map. apply Forall_map.
    eapply Forall_impl; [|exact Hx]. intros s Hs.
    apply scaled_in_unit_range; [lia|exact Hs].
  - rewrite map_map. apply Forall_map.
    eapply Forall_impl; [|exact Hx]. intros s [Hlo Hhi].
    unfold in_unit_range.
    rewrite Zle_Qle in Hlo. rewrite Zlt_Qlt in Hhi.
    change (inject_Z 0) with 0%Q in Hlo.
    change (inject_Z (2 ^ 8)) with 256%Q in *.
    split.
    + apply Qle_minus_iff.
      setoid_replace (inject_Z s / 256 * 2 - 1 + - -1)%Q
        with (inject_Z s * (2 # 256))%Q by field.
      apply Qmult_le_0_compat; [exact Hlo|discriminate].
    + apply Qlt_minus_iff.
      setoid_replace (1 + - (inject_Z s / 256 * 2 - 1))%Q
        with ((256 - inject_Z s) * (2 # 256))%Q by field.
      apply Qmult_lt_0_compat; [lra|reflexivity].
Qed.

Lemma to_float_unit_range_witness :
  length (to_float Np.Int16 [-32768; 0; 16384; 32767]) = 4%nat
  /\ Forall in_unit_range (to_float Np.Int16 [-32768; 0; 16384; 32767]).
Proof.
  apply (to_float_unit_range Np.Int16 [-32768; 0; 16384; 32767]).
  - discriminate.
  - repeat constructor; simpl; lia.
Defined.

(** X2. [to_float] rescales [int32], [int16] and [uint8] arrays only.
    An [int8] array, which is what pydub hands out for 8-bit audio, comes
    out as it went in: a sample of magnitude above 1 is found unchanged in
    the result, outside the documented range -1..1. *)
Theorem to_float_leaves_int8_unscaled (x : list Z) (s : Z) :
  In s x -> 1 < Z.abs s ->
  In (inject_Z s) (to_float Np.Int8 x) /\ ~ in_unit_range (inject_Z s).
Proof.
  intros Hin Hs. split.
  - unfold to_float. apply in_map, Hin.
  - unfold in_unit_range. intros [Hlo Hhi].
    change (-1)%Q with (inject_Z (-1)) in Hlo.
    change 1%Q with (inject_Z 1) in Hhi.
    rewrite <- Zle_Qle in Hlo. rewrite <- Zlt_Qlt in Hhi. lia.
Qed.

Lemma to_float_leaves_int8_unscaled_witness :
  In (inject_Z 100) (to_float Np.Int8 [0; 100; -3])
  /\ ~ in_unit_range (inject_Z 100).
Proof.
  apply (to_float_leaves_int8_unscaled [0; 100; -3] 100).
  - simpl. right. left. reflexivity.
  - simpl. lia.
Defined.

(** ** [zero_pad] *)

(** X3. [zero_pad] never truncates. When the buffer has more than
    [max_samples] samples, [np.zeros] refuses the negative length and the
    call raises; otherwise the result has exactly [max_samples] samples,
    starts with the samples of the buffer, holds only zeros after them, is
    mono, keeps the sample width and takes the frame rate [fs] given (the
    samples are not resampled). *)
Theorem zero_pad_never_truncates (seg : AudioSegment.t) (max_samples fs : Z) :
  match zero_pad seg max_samples fs with
  | Ok padded =>
      samples_of seg <= max_samples
      /\ samples_of padded = max_samples
      /\ firstn (length (get_array_of_samples seg))
                (get_array_of_samples padded)
         = get_array_of_samples seg
      /\ Forall (fun v => v = 0)
                (skipn (length (get_array_of_samples seg))
                       (get_array_of_samples padded))
      /\ channels padded = 1
      /\ sample_width padded = sample_width seg
      /\ frame_rate padded = fs
  | Raise e =>
      max_samples < samples_of seg
      /\ e = ValueError ["negative dimensions are not allowed"%string]
  end.
Proof.
  unfold zero_pad, samples_of.
  set (data := get_array_of_samples seg).
  destruct (Z.ltb_spec (max_samples - Z.of_nat (length data)) 0) as [Hlt|Hge].
  - split; [lia|reflexivity].
  - cbn [get_array_of_samples mono tracks hd sample_width frame_rate
         channels length].
    rewrite length_app, repeat_length.
    rewrite firstn_app, Nat.sub_diag, firstn_all.
    rewrite skipn_app, Nat.sub_diag, skipn_all.
    cbn [firstn skipn app]. rewrite app_nil_r.
    repeat split; try reflexivity; try lia.
    apply Forall_forall. intros v Hv. now apply repeat_spec in Hv.
Qed.

(** X4. Padding in two steps is padding in one: after a first
    [zero_pad] to [n] samples, padding the result to [m >= n] samples gives
    what padding the original buffer to [m] gives, whatever frame rate the
    first step stamped. *)
Theorem zero_pad_twice (seg padded : AudioSegment.t) (n m fs fs' : Z) :
  n <= m ->
  zero_pad seg n fs = Ok padded ->
  zero_pad padded m fs' = zero_pad seg m fs'.
Proof.
  intros Hnm H. unfold zero_pad in *.
  set (data := get_array_of_samples seg) in *.
  destruct (Z.ltb_spec (n - Z.of_nat (length data)) 0) as [Hlt|Hge];
    [discriminate H|].
  injection H as <-.
  cbn [get_array_of_samples mono tracks hd sample_width].
  rewrite length_app, repeat_length.
  replace (m - Z.of_nat (length data + Z.to_nat (n - Z.of_nat (length data))))
    with (m - n) by lia.
  destruct (Z.ltb_spec (m - n) 0) as [H1|H1]; [lia|].
  destruct (Z.ltb_spec (m - Z.of_nat (length data)) 0) as [H2|H2]; [lia|].
  rewrite <- app_assoc, <- repeat_app.
  replace (Z.to_nat (n - Z.of_nat (length data)) + Z.to_nat (m - n))%nat
    with (Z.to_nat (m - Z.of_nat (length data))) by lia.
  reflexivity.
Qed.

Lemma zero_pad_twice_witness :
  zero_pad (mono 2 48000 [5; -6; 0; 0; 0]) 8 44100
  = zero_pad (mono 2 8000 [5; -6]) 8 44100.
Proof.
  apply (zero_pad_twice (mono 2 8000 [5; -6]) (mono 2 48000 [5; -6; 0; 0; 0])
                        5 8 48000 44100).
  - lia.
  - reflexivity.
Defined.

(** ** [split_recording] *)

(** X5. A recording with fewer than two tracks cannot be split:
    [recording.channels // 2] is 0 and the division that computes the
    number of speakers per track raises [ZeroDivisionError], whatever the
    other arguments. *)
Theorem split_recording_needs_two_tracks
    (recording test_signal : AudioSegment.t) (speakers : list string)
    (silence_length : Q) :
  channels recording < 2 ->
  split_recording recording test_signal speakers silence_length
  = Raise ZeroDivisionError.
Proof.
  intros H. unfold split_recording.
  assert (Hc : 0 <= channels recording) by (unfold channels; lia).
  rewrite (Z.div_small (channels recording) 2) by lia. reflexivity.
Qed.

Lemma split_recording_needs_two_tracks_witness :
  split_recording (mono 2 8000 (click 10 32)) (mono 2 8000 [1; 2; 3])
                  ["FL"%string] 2
  = Raise ZeroDivisionError.
Proof.
  apply (split_recording_needs_two_tracks
           (mono 2 8000 (click 10 32)) (mono 2 8000 [1; 2; 3]) ["FL"%string] 2).
  vm_compute. reflexivity.
Defined.

(** ** [crop_ir_tail]: the noise floor *)

(** X8. The noise floor of [crop_ir_tail], when it is a number, is at
    least [10 ** -6] and at least ten times the mean of [rms[-10:-1]], and
    it is one of the two. *)
Theorem noise_floor_at_least_minus_60_dB (rms : list Np.float) (f : Q) :
  noise_floor rms = Some f ->
  (1 # 1000000 <= f)%Q
  /\ exists m, Np.mean_f (Py.slice rms (-10) (-1)) = Some m
               /\ (m * 10 <= f)%Q
               /\ (f == m * 10 \/ f == 1 # 1000000)%Q.
Proof.
  unfold noise_floor. intros H.
  destruct (Np.mean_f (Py.slice rms (-10) (-1))) as [m|]; [|discriminate H].
  cbn [Np.scale Np.max2] in H. injection H as <-.
  destruct (ltb_spec (m * 10) (1 # 1000000)) as [Hlt|Hge].
  - split; [apply Qle_refl|]. exists m. split; [reflexivity|].
    split; [apply Qlt_le_weak, Hlt|right; reflexivity].
  - apply Qnot_lt_le in Hge. split; [exact Hge|]. exists m.
    split; [reflexivity|]. split; [apply Qle_refl|left; reflexivity].
Qed.

Lemma noise_floor_at_least_minus_60_dB_witness :
  (1 # 1000000 <= 40 # 8)%Q
  /\ exists m, Np.mean_f (Py.slice [Some (1 # 2)%Q; Some (1 # 2)%Q; Some 0%Q] (-10) (-1))
               = Some m
               /\ (m * 10 <= 40 # 8)%Q
               /\ (40 # 8 == m * 10 \/ 40 # 8 == 1 # 1000000)%Q.
Proof.
  apply (noise_floor_at_least_minus_60_dB [Some (1 # 2)%Q; Some (1 # 2)%Q; Some 0%Q] (40 # 8)).
  vm_compute. reflexivity.
Defined.

(** ** The constants *)

(** X12. [DELAYS] has an entry for every name of [CHANNELS] and for
    no other: the lookup [DELAYS[speaker]] of [crop_ir_head] succeeds
    exactly on those names. *)
Theorem delays_cover_channels (speaker : string) :
  In speaker CHANNELS <-> exists delay, DELAYS speaker = Some delay.
Proof.
  split.
  - intros H. simpl in H.
    repeat (destruct H as [<-|H]; [eexists; reflexivity|]).
    destruct H.
  - intros [delay H]. unfold DELAYS in H. unfold CHANNELS.
    repeat match type of H with
           | (if (speaker =? ?s)%string then _ else _) = _ =>
               destruct (String.eqb_spec speaker s) as [->|_];
               [simpl; tauto|]
           end.
    discriminate H.
Qed.

(** ** [main]: the parameter checks *)

(** X17. A run of [main] that stops on [measure] or in the parameter
    checks raises before any file is read or written: the files are as
    they were, whatever the reader of WAV files would have returned. *)
Theorem configuration_errors_touch_no_file
    (from_wav : string -> result AudioSegment.t)
    (deconv_frequency : list Q -> list Q -> list Q)
    (headphones_lines : list Z -> Z -> result (list string))
    (a : args) (e : exn) (files : list (string * file)) :
  (if measure a
   then e = NotImplementedError "Measurement is not yet implemented."
   else parameter_checks a = Raise e) ->
  main from_wav deconv_frequency headphones_lines a files = (files, Raise e).
Proof.
  unfold main. destruct (measure a).
  - intros ->. reflexivity.
  - intros H. unfold bind_io at 1, lift. rewrite H. reflexivity.
Qed.

Lemma configuration_errors_touch_no_file_witness :
  main (fun _ => Raise (FileNotFoundError "recording.wav"))
       (fun y _ => y) (fun _ _ => Ok [])
       (mk_args false false true false false None (Some "test.wav"%string)
                None None None None)
       [("out/hrir.wav"%string, Csv [])]
  = ([("out/hrir.wav"%string, Csv [])],
     Raise (required "recording" "deconvolution")).
Proof.
  apply (configuration_errors_touch_no_file
           (fun _ => Raise (FileNotFoundError "recording.wav"))
           (fun y _ => y) (fun _ _ => Ok [])
           (mk_args false false true false false None (Some "test.wav"%string)
                    None None None None)).
  reflexivity.
Defined.

(** X18. The check [if not silence_length] takes a length of zero for
    a missing one: pre-processing with [silence_length = 0] and every other
    parameter given raises the configuration error for [silence_length]. *)
Theorem zero_silence_length_is_refused
    (from_wav : string -> result AudioSegment.t)
    (deconv_frequency : list Q -> list Q -> list Q)
    (headphones_lines : list Z -> Z -> result (list string))
    (a : args) (q : Q) (files : list (string * file)) :
  measure a = false -> preprocess a = true ->
  truthy_list (speakers a) = true ->
  truthy_str (recording a) = true ->
  truthy_str (test a) = true ->
  silence_length a = Some q -> (q == 0)%Q ->
  main from_wav deconv_frequency headphones_lines a files
  = (files, Raise (required "silence_length" "pre-processing")).
Proof.
  intros Hm Hp Hs Hr Ht Hq H0. unfold main. rewrite Hm.
  unfold bind_io at 1, lift.
  assert (Hc : parameter_checks a
               = Raise (required "silence_length" "pre-processing")).
  { unfold parameter_checks. rewrite Hp, Hs, Hr, Ht, Hq, Hm.
    cbn [orb andb negb bind truthy_float].
    apply Qeq_bool_iff in H0. rewrite H0. reflexivity. }
  rewrite Hc. reflexivity.
Qed.

Lemma zero_silence_length_is_refused_witness :
  main (fun _ => Ok (mono 2 8000 [])) (fun y _ => y) (fun _ _ => Ok [])
       (mk_args false true false false false
                (Some "recording.wav"%string) (Some "test.wav"%string) None
                (Some ["FL"%string; "FR"%string]) (Some 0%Q) None)
       []
  = ([], Raise (required "silence_length" "pre-processing")).
Proof.
  apply (zero_silence_length_is_refused
           (fun _ => Ok (mono 2 8000 [])) (fun y _ => y) (fun _ _ => Ok [])
           (mk_args false true false false false
                    (Some "recording.wav"%string) (Some "test.wav"%string) None
                    (Some ["FL"%string; "FR"%string]) (Some 0%Q) None)
           0%Q []);
    reflexivity.
Defined.

(** ** Onset detection *)

Lemma plateau_spec (v : Q) (l : list Q) :
  (l <> [] -> (Signal.plateau v l < length l)%nat)
  /\ (forall j, (j < Signal.plateau v l)%nat -> (nth j l 0 == v)%Q).
Proof.
  induction l as [|y l IH].
  - split; [congruence|]. simpl. intros j Hj. lia.
  - destruct l as [|z l'].
    + split; simpl; intros; lia.
    + change (Signal.plateau v (y :: z :: l'))
        with (if Qeq_bool y v then S (Signal.plateau v (z :: l')) else O).
      destruct IH as [IH1 IH2].
      destruct (Qeq_bool y v) eqn:Hy.
      * split.
        -- intros _. specialize (IH1 ltac:(discriminate)).
           cbn [length] in *. lia.
        -- intros [|j] Hj.
           ++ simpl. now apply Qeq_bool_iff.
           ++ cbn [nth]. apply IH2. lia.
      * split; [cbn [length]; lia|]. intros j Hj. lia.
Qed.

(** A peak of [local_maxima] sits [d] entries into [rest], not on its last
    entry, and neither neighbour is higher. *)
Lemma local_maxima_spec (rest : list Q) :
  forall (prev : Q) (i p : Z),
    In p (Signal.local_maxima prev i rest) ->
    exists d : nat,
      p = i + Z.of_nat d
      /\ (d + 1 < length rest)%nat
      /\ (nth d (prev :: rest) 0 <= nth (S d) (prev :: rest) 0)%Q
      /\ (nth (S (S d)) (prev :: rest) 0 <= nth (S d) (prev :: rest) 0)%Q.
Proof.
  induction rest as [|xi rest' IH]; intros prev i p Hin.
  - destruct Hin.
  - destruct rest' as [|z l'].
    + destruct Hin.
    + change (Signal.local_maxima prev i (xi :: z :: l'))
        with (let others := Signal.local_maxima xi (i + 1) (z :: l') in
              if Py.ltb prev xi then
                let k := Signal.plateau xi (z :: l') in
                if Py.ltb (nth k (z :: l') 0%Q) xi
                then (i + Z.of_nat k / 2) :: others
                else others
              else others) in Hin.
      cbv zeta in Hin.
      assert (Hothers :
                In p (Signal.local_maxima xi (i + 1) (z :: l')) ->
                exists d : nat,
                  p = i + Z.of_nat d
                  /\ (d + 1 < length (xi :: z :: l'))%nat
                  /\ (nth d (prev :: xi :: z :: l') 0
                      <= nth (S d) (prev :: xi :: z :: l') 0)%Q
                  /\ (nth (S (S d)) (prev :: xi :: z :: l') 0
                      <= nth (S d) (prev :: xi :: z :: l') 0)%Q).
      { intros H. apply IH in H as (d & -> & Hd & Hl & Hr).
        exists (S d). cbn [length] in *. repeat split.
        - lia.
        - lia.
        - exact Hl.
        - exact Hr. }
      destruct (ltb_spec prev xi) as [Hrise|_]; [|auto].
      destruct (ltb_spec (nth (Signal.plateau xi (z :: l')) (z :: l') 0%Q) xi)
        as [Hfall|_]; [|auto].
      destruct Hin as [<-|Hin]; [|auto].
      destruct (plateau_spec xi (z :: l')) as [Hk Hflat].
      specialize (Hk ltac:(discriminate)).
      set (k := Signal.plateau xi (z :: l')) in *.
      exists (Nat.div2 k).
      assert (Hhalf : Z.of_nat k / 2 = Z.of_nat (Nat.div2 k)).
      { rewrite Nat.div2_div, Nat2Z.inj_div. reflexivity. }
      assert (Hm : (Nat.div2 k <= k)%nat).
      { rewrite Nat.div2_div. apply Nat.Div0.div_le_upper_bound. lia. }
      assert (Hmk : (Nat.div2 k < k)%nat \/ k = 0%nat).
      { destruct k as [|k']; [now right|left].
        apply Nat.lt_div2. lia. }
      repeat split.
      * now rewrite Hhalf.
      * cbn [length] in *. lia.
      * (* left neighbour *)
        destruct (Nat.div2 k) as [|m] eqn:Em.
        -- cbn [nth]. apply Qlt_le_weak, Hrise.
        -- cbn [nth].
           assert (H1 : (nth m (z :: l') 0 == xi)%Q) by (apply Hflat; lia).
           destruct m as [|m'].
           ++ rewrite H1. apply Qle_refl.
           ++ assert (H2 : (nth m' (z :: l') 0 == xi)%Q) by (apply Hflat; lia).
              cbn [nth] in H1 |- *. rewrite H2.
              change (nth m' l' 0%Q) with (nth (S m') (z :: l') 0%Q).
              rewrite H1. apply Qle_refl.
      * (* right neighbour *)
        assert (Hpeak : (nth (S (Nat.div2 k)) (prev :: xi :: z :: l') 0 == xi)%Q).
        { destruct (Nat.div2 k) as [|m] eqn:Em; [reflexivity|].
          change (nth (S (S m)) (prev :: xi :: z :: l') 0%Q)
            with (nth m (z :: l') 0%Q).
          apply Hflat. lia. }
        rewrite Hpeak.
        change (nth (S (S (Nat.div2 k))) (prev :: xi :: z :: l') 0%Q)
          with (nth (Nat.div2 k) (z :: l') 0%Q).
        destruct Hmk as [Hlt|H0].
        -- rewrite (Hflat _ Hlt). apply Qle_refl.
        -- rewrite H0 in *. apply Qlt_le_weak, Hfall.
Qed.

(** X9. Every peak index that [crop_ir_head] gets from [find_peaks]
    is an interior index of the normalised buffer (never the first sample,
    never the last), its value is at least the height 0.1, and neither
    neighbour is higher. *)
Theorem peaks_are_interior_maxima (seg : AudioSegment.t) (p : Z) :
  In p (peaks seg) ->
  0 < p < Z.of_nat (length (normalized seg)) - 1
  /\ (1 # 10 <= nth (Z.to_nat p) (normalized seg) 0)%Q
  /\ (nth (Z.to_nat (p - 1)) (normalized seg) 0
      <= nth (Z.to_nat p) (normalized seg) 0)%Q
  /\ (nth (Z.to_nat (p + 1)) (normalized seg) 0
      <= nth (Z.to_nat p) (normalized seg) 0)%Q.
Proof.
  intros Hin. unfold peaks in Hin. fold (normalized seg) in Hin.
  unfold Signal.find_peaks in Hin. apply filter_In in Hin as [Hin Hh].
  apply Qle_bool_iff in Hh.
  destruct (normalized seg) as [|x0 rest]; [destruct Hin|].
  cbn [Signal.local_maxima_1d] in Hin.
  apply local_maxima_spec in Hin as (d & -> & Hd & Hl & Hr).
  replace (Z.to_nat (1 + Z.of_nat d)) with (S d) in * by lia.
  replace (Z.to_nat (1 + Z.of_nat d - 1)) with d by lia.
  replace (Z.to_nat (1 + Z.of_nat d + 1)) with (S (S d)) by lia.
  cbn [length]. repeat split; try assumption; lia.
Qed.

Lemma peaks_are_interior_maxima_witness :
  0 < 10 < Z.of_nat (length (normalized click_at_10)) - 1
  /\ (1 # 10 <= nth (Z.to_nat 10) (normalized click_at_10) 0)%Q
  /\ (nth (Z.to_nat (10 - 1)) (normalized click_at_10) 0
      <= nth (Z.to_nat 10) (normalized click_at_10) 0)%Q
  /\ (nth (Z.to_nat (10 + 1)) (normalized click_at_10) 0
      <= nth (Z.to_nat 10) (normalized click_at_10) 0)%Q.
Proof.
  apply (peaks_are_interior_maxima click_at_10 10).
  vm_compute. left. reflexivity.
Defined.

Lemma local_maxima_cons (prev xi z : Q) (i : Z) (l : list Q) :
  Signal.local_maxima prev i (xi :: z :: l)
  = if Py.ltb prev xi then
      if Py.ltb (nth (Signal.plateau xi (z :: l)) (z :: l) 0%Q) xi
      then (i + Z.of_nat (Signal.plateau xi (z :: l)) / 2)
             :: Signal.local_maxima xi (i + 1) (z :: l)
      else Signal.local_maxima xi (i + 1) (z :: l)
    else Signal.local_maxima xi (i + 1) (z :: l).
Proof. reflexivity. Qed.

Lemma local_maxima_flat (q : Q) (m : nat) (i : Z) :
  Signal.local_maxima q i (repeat q m) = [].
Proof.
  revert i. induction m as [|m IH]; intros i; [reflexivity|].
  destruct m as [|m']; [reflexivity|].
  change (repeat q (S (S m'))) with (q :: q :: repeat q m').
  rewrite local_maxima_cons.
  change (q :: repeat q m') with (repeat q (S m')).
  rewrite IH.
  destruct (ltb_spec q q) as [H|_]; [|reflexivity].
  exfalso. exact (Qlt_irrefl _ H).
Qed.

Lemma to_float_flat (dt : Np.dtype) (v : Z) (n : nat) :
  exists q, to_float dt (repeat v n) = repeat q n.
Proof.
  unfold to_float. destruct dt; repeat rewrite map_repeat; eauto.
Qed.

Lemma normalize_flat (sw fs v : Z) (n : nat) :
  exists v', get_array_of_samples (normalize (mono sw fs (repeat v n)))
             = repeat v' n.
Proof.
  unfold normalize. destruct (max (mono sw fs (repeat v n)) =? 0).
  - exists v. reflexivity.
  - cbn [mono tracks sample_width frame_rate map get_array_of_samples hd].
    unfold mul. rewrite map_repeat. eauto.
Qed.

(** A buffer that holds one value throughout has no peak. *)
Lemma peaks_flat (sw fs v : Z) (n : nat) :
  peaks (mono sw fs (repeat v n)) = [].
Proof.
  unfold peaks.
  destruct (normalize_flat sw fs v n) as [v' ->].
  destruct (to_float_flat (array_type (mono sw fs (repeat v n))) v' n) as [q ->].
  unfold Signal.find_peaks.
  destruct n as [|n]; [reflexivity|].
  cbn [repeat Signal.local_maxima_1d]. rewrite local_maxima_flat. reflexivity.
Qed.

(** X10. An ear that holds one value throughout (silence in
    particular) has no peak: [peak[0]] raises [IndexError], whichever ear it
    is and whatever the speaker. *)
Theorem flat_ear_has_no_onset
    (left right : AudioSegment.t) (speaker : string) (sw fs v : Z) (n : nat) :
  left = mono sw fs (repeat v n) \/ right = mono sw fs (repeat v n) ->
  crop_ir_head left right speaker = Raise IndexError.
Proof.
  intros [-> | ->]; unfold crop_ir_head, first_peak_ms.
  - rewrite peaks_flat. reflexivity.
  - rewrite peaks_flat. destruct (peaks left); reflexivity.
Qed.

Lemma flat_ear_has_no_onset_witness :
  crop_ir_head click_at_10 (mono 2 8000 (repeat 1000 32)) "FL"
  = Raise IndexError.
Proof.
  apply (flat_ear_has_no_onset click_at_10 (mono 2 8000 (repeat 1000 32)) "FL"
                               2 8000 1000 32).
  right. reflexivity.
Defined.

(** pydub's slicing raises nothing but [TooManyMissingFrames]. *)
Lemma getslice_raises (seg : t) (start stop : option Q) (e : exn) :
  getslice seg start stop = Raise e -> e = TooManyMissingFrames.
Proof.
  unfold getslice.
  repeat match goal with
         | |- context [if ?c then _ else _] => destruct c
         end; intros H; try discriminate H.
  now injection H as <-.
Qed.

Lemma fade_in_raises (seg : t) (duration : Q) (e : exn) :
  fade_in seg duration = Raise e -> e = TooManyMissingFrames.
Proof.
  unfold fade_in.
  destruct (getslice seg None (Some 0%Q)) as [before|e1] eqn:H1; cbn [bind].
  - destruct (getslice seg (Some (0 + duration)%Q) None) as [after|e2] eqn:H2;
      cbn [bind]; intros H; [discriminate H|].
    injection H as <-. eapply getslice_raises, H2.
  - intros H. injection H as <-. eapply getslice_raises, H1.
Qed.

(** X11. The direction check only looks for [L] and [R] in second
    position of the speaker name. For a name with another second
    character, as [FC], [crop_ir_head] never raises [ValueError], whichever
    ear the sound reaches first. *)
Theorem direction_check_needs_L_or_R
    (left right : AudioSegment.t) (speaker : string) (args : list string) :
  second_char_is speaker "L"%char = Ok false ->
  second_char_is speaker "R"%char = Ok false ->
  crop_ir_head left right speaker <> Raise (ValueError args).
Proof.
  intros HL HR. unfold crop_ir_head.
  destruct (first_peak_ms left) as [pl|e] eqn:Hpl; cbn [bind].
  2:{ unfold first_peak_ms in Hpl. destruct (peaks left); [|discriminate Hpl].
      injection Hpl as <-. discriminate. }
  destruct (first_peak_ms right) as [pr|e] eqn:Hpr; cbn [bind].
  2:{ unfold first_peak_ms in Hpr. destruct (peaks right); [|discriminate Hpr].
      injection Hpr as <-. discriminate. }
  destruct (DELAYS speaker) as [delay|]; cbn [bind]; [|discriminate].
  rewrite HL, HR. cbn [bind].
  assert (Hs : forall (s1 s2 : t) (a b : Q) (k : t * t -> result (t * t)),
             (forall l r, k (l, r) <> Raise (ValueError args)) ->
             bind (l <- getslice s1 (Some a) None ;;
                   r <- getslice s2 (Some b) None ;; Ok (l, r)) k
             <> Raise (ValueError args)).
  { intros s1 s2 a b k Hk.
    destruct (getslice s1 (Some a) None) as [l|e] eqn:H1; cbn [bind].
    2:{ apply getslice_raises in H1 as ->. discriminate. }
    destruct (getslice s2 (Some b) None) as [r|e] eqn:H2; cbn [bind].
    2:{ apply getslice_raises in H2 as ->. discriminate. }
    apply Hk. }
  assert (Hk : forall l r,
             (left <- fade_in l (2 / inject_Z (frame_rate l) / 1000) ;;
              right <- fade_in r (2 / inject_Z (frame_rate r) / 1000) ;;
              left <- crop_to_samples left ;;
              right <- crop_to_samples right ;;
              Ok (left, right))
             <> Raise (ValueError args)).
  { intros l r.
    destruct (fade_in l _) as [l1|e] eqn:H1; cbn [bind].
    2:{ apply fade_in_raises in H1 as ->. discriminate. }
    destruct (fade_in r _) as [r1|e] eqn:H2; cbn [bind].
    2:{ apply fade_in_raises in H2 as ->. discriminate. }
    unfold crop_to_samples.
    destruct (getslice l1 _ _) as [l2|e] eqn:H3; cbn [bind].
    2:{ apply getslice_raises in H3 as ->. discriminate. }
    destruct (getslice r1 _ _) as [r2|e] eqn:H4; cbn [bind].
    2:{ apply getslice_raises in H4 as ->. discriminate. }
    discriminate. }
  destruct (Py.ltb pl pr); apply Hs; intros l r; apply Hk.
Qed.

Lemma direction_check_needs_L_or_R_witness :
  crop_ir_head click_at_14 click_at_10 "FC"
  <> Raise (ValueError ["FC"%string;
                        "impulse response has lower delay to right ear than to left."%string]).
Proof.
  apply (direction_check_needs_L_or_R click_at_14 click_at_10 "FC"); reflexivity.
Defined.

(** ** The post-processing stage *)

Lemma getslice_format (seg r : t) (start stop : option Q) :
  getslice seg start stop = Ok r ->
  sample_width r = sample_width seg
  /\ frame_rate r = frame_rate seg
  /\ length (tracks r) = length (tracks seg).
Proof.
  unfold getslice.
  match goal with
  | |- context [map ?f (tracks seg)] => set (data := map f (tracks seg))
  end.
  assert (Hd : length data = length (tracks seg)) by apply length_map.
  clearbody data.
  destruct (_ =? 0).
  - intros H. injection H as <-. cbn [sample_width frame_rate tracks]. auto.
  - destruct (Py.gtb _ _); intros H; [discriminate H|].
    injection H as <-. cbn [sample_width frame_rate tracks].
    rewrite length_map. auto.
Qed.

Lemma getslice_same_format (seg r : t) (start stop : option Q) :
  getslice seg start stop = Ok r -> same_format seg r.
Proof.
  intros H. apply getslice_format in H as (H1 & H2 & H3).
  unfold same_format, channels. rewrite H3. auto.
Qed.

Lemma fade_in_format (seg r : t) (duration : Q) :
  fade_in seg duration = Ok r ->
  exists data, r = mono (sample_width seg) (frame_rate seg) data.
Proof.
  unfold fade_in. intros H.
  apply bind_ok in H as (before & _ & H).
  apply bind_ok in H as (after & _ & H).
  injection H as <-. eauto.
Qed.

Lemma same_format_trans (a b c : t) :
  same_format a b -> same_format b c -> same_format a c.
Proof.
  unfold same_format. intros (H1 & H2 & H3) (H4 & H5 & H6).
  repeat split; try congruence. auto.
Qed.

Lemma head_ear_format (x y z : t) :
  fade_in x (2 / inject_Z (frame_rate x) / 1000) = Ok y ->
  crop_to_samples y = Ok z ->
  same_format x z.
Proof.
  intros Hf Hc. apply fade_in_format in Hf as [data ->].
  revert Hc. unfold crop_to_samples. intros Hc.
  apply getslice_format in Hc as (H1 & H2 & H3).
  cbn [mono sample_width frame_rate tracks length] in H1, H2, H3.
  unfold same_format, channels. rewrite H1, H2, H3. auto.
Qed.

Lemma crop_ir_head_format (left right l' r' : t) (speaker : string) :
  crop_ir_head left right speaker = Ok (l', r') ->
  same_format left l' /\ same_format right r'.
Proof.
  unfold crop_ir_head. intros H.
  apply bind_ok in H as (pl & _ & H).
  apply bind_ok in H as (pr & _ & H).
  apply bind_ok in H as (delay & _ & H).
  apply bind_ok in H as ([l0 r0] & Hs & H).
  apply bind_ok in H as (l1 & Hl1 & H).
  apply bind_ok in H as (r1 & Hr1 & H).
  apply bind_ok in H as (l2 & Hl2 & H).
  apply bind_ok in H as (r2 & Hr2 & H).
  injection H as <- <-.
  assert (H0 : same_format left l0 /\ same_format right r0).
  { destruct (Py.ltb pl pr).
    - apply bind_ok in Hs as (b & _ & Hs). destruct b; [discriminate Hs|].
      apply bind_ok in Hs as (l & Hl & Hs).
      apply bind_ok in Hs as (r & Hr & Hs).
      injection Hs as <- <-.
      split; [exact (getslice_same_format _ _ _ _ Hl)
             |exact (getslice_same_format _ _ _ _ Hr)].
    - apply bind_ok in Hs as (b & _ & Hs). destruct b; [discriminate Hs|].
      apply bind_ok in Hs as (l & Hl & Hs).
      apply bind_ok in Hs as (r & Hr & Hs).
      injection Hs as <- <-.
      split; [exact (getslice_same_format _ _ _ _ Hl)
             |exact (getslice_same_format _ _ _ _ Hr)]. }
  destruct H0 as [Hl0 Hr0]. split.
  - exact (same_format_trans _ _ _ Hl0 (head_ear_format _ _ _ Hl1 Hl2)).
  - exact (same_format_trans _ _ _ Hr0 (head_ear_format _ _ _ Hr1 Hr2)).
Qed.

Lemma crop_pair_format (left right : t) (k : nat) (pair : list t) :
  crop_pair left right k = Ok pair ->
  exists l' r', pair = [l'; r'] /\ same_format left l' /\ same_format right r'.
Proof.
  unfold crop_pair, crop_ir_tail.
  destruct ((rms left >? 2) && (rms right >? 2)); intros H.
  - apply bind_ok in H as (lt & Hlt & H).
    apply bind_ok in H as (rt & Hrt & H).
    apply bind_ok in H as (sp & _ & H).
    apply bind_ok in H as ([l' r'] & Hh & H).
    injection H as <-. exists l', r'. split; [reflexivity|].
    apply crop_ir_head_format in Hh as [Hl Hr].
    split.
    + exact (same_format_trans _ _ _ (getslice_same_format _ _ _ _ Hlt) Hl).
    + exact (same_format_trans _ _ _ (getslice_same_format _ _ _ _ Hrt) Hr).
  - apply bind_ok in H as (l1 & Hl & H).
    apply bind_ok in H as (r1 & Hr & H).
    injection H as <-. exists l1, r1. split; [reflexivity|].
    split; [exact (getslice_same_format _ _ _ _ Hl)
           |exact (getslice_same_format _ _ _ _ Hr)].
Qed.

Lemma crop_pairs_format (n : nat) :
  forall (responses out : list t) (k : nat),
    (length responses <= n)%nat ->
    crop_pairs responses k = Ok out ->
    Forall2 same_format responses out /\ Nat.even (length responses) = true.
Proof.
  induction n as [|n IH]; intros responses out k Hn H.
  - destruct responses; [|simpl in Hn; lia].
    injection H as <-. split; [constructor|reflexivity].
  - destruct responses as [|a [|b rest]].
    + injection H as <-. split; [constructor|reflexivity].
    + discriminate H.
    + cbn [crop_pairs] in H.
      apply bind_ok in H as (pair & Hp & H).
      apply bind_ok in H as (others & Ho & H).
      injection H as <-.
      apply crop_pair_format in Hp as (l' & r' & -> & Hl & Hr).
      apply IH in Ho as [HF He]; [|simpl in Hn; lia].
      split.
      * cbn [app]. constructor; [exact Hl|]. constructor; [exact Hr|exact HF].
      * cbn [length]. exact He.
Qed.

(** X14. A run of the cropping loop that completes returns one
    buffer per response, in order, each in the sample width and at the
    frame rate of its response, mono when the response is; the responses
    were even in number (a last response without its partner raises). *)
Theorem crop_pairs_keeps_tracks_and_format
    (responses out : list AudioSegment.t) (k : nat) :
  crop_pairs responses k = Ok out ->
  Forall2 same_format responses out
  /\ Nat.even (length responses) = true.
Proof.
  intros H. exact (crop_pairs_format (length responses) responses out k (le_n _) H).
Qed.

Lemma crop_pairs_keeps_tracks_and_format_witness :
  Forall2 same_format [click_at_10; click_at_14]
          [mono 2 8000 [0; 0; 20000; 10000; -5000; 0; 0];
           mono 2 8000 [0; 0; 0; 0; 0; 0; 20000]]
  /\ Nat.even (length [click_at_10; click_at_14]) = true.
Proof.
  apply (crop_pairs_keeps_tracks_and_format
           [click_at_10; click_at_14]
           [mono 2 8000 [0; 0; 20000; 10000; -5000; 0; 0];
            mono 2 8000 [0; 0; 0; 0; 0; 0; 20000]] 0).
  vm_compute. reflexivity.
Defined.

(** The stage, one step after the other: what is written when a step
    raises. *)
Lemma postprocess_stage_steps (responses : t) (files : list (string * file)) :
  postprocess_stage responses files
  = match crop_pairs (split_to_mono responses) 0 with
    | Raise e => (files, Raise e)
    | Ok cropped =>
        match zero_pad_to_longest cropped (frame_rate responses) with
        | Raise e => (files, Raise e)
        | Ok padded =>
            match from_mono_audiosegments padded with
            | Raise e => (files, Raise e)
            | Ok standard =>
                match map_result
                        (fun ch => i <- list_index ch IR_ORDER ;; index padded i)
                        hesuvi_order with
                | Raise e => (files ++ [("out/hrir.wav"%string, Wav standard)], Raise e)
                | Ok in_order =>
                    match from_mono_audiosegments in_order with
                    | Raise e =>
                        (files ++ [("out/hrir.wav"%string, Wav standard)], Raise e)
                    | Ok hesuvi =>
                        (files ++ [("out/hrir.wav"%string, Wav standard);
                                   ("out/hesuvi.wav"%string, Wav hesuvi)], Ok tt)
                    end
                end
            end
        end
    end.
Proof.
  unfold postprocess_stage, bind_io, lift, export.
  destruct (crop_pairs (split_to_mono responses) 0) as [cropped|e]; [|reflexivity].
  destruct (zero_pad_to_longest cropped (frame_rate responses)) as [padded|e];
    [|reflexivity].
  destruct (from_mono_audiosegments padded) as [standard|e]; [|reflexivity].
  destruct (map_result _ hesuvi_order) as [in_order|e]; [|reflexivity].
  destruct (from_mono_audiosegments in_order) as [hesuvi|e]; [|reflexivity].
  rewrite <- app_assoc. reflexivity.
Qed.

(** The HeSuVi order names position 13 of [IR_ORDER]: fewer than fourteen
    buffers cannot be put in that order. *)
Lemma hesuvi_needs_14 (padded : list t) :
  (length padded < 14)%nat ->
  map_result (fun ch => i <- list_index ch IR_ORDER ;; index padded i)
             hesuvi_order
  = Raise IndexError.
Proof.
  intros H.
  do 14 (destruct padded as [|? padded]; [reflexivity|]).
  simpl in H. lia.
Qed.

Lemma map_result_lookup (names chs : list string) (padded r : list t) :
  map_result (fun ch => i <- list_index ch names ;; index padded i) chs = Ok r ->
  Forall2 (fun ch p => exists i, list_index ch names = Ok i
                                 /\ nth_error padded (Z.to_nat i) = Some p)
          chs r.
Proof.
  revert r. induction chs as [|ch chs IH]; intros r H.
  - injection H as <-. constructor.
  - cbn [map_result] in H.
    apply bind_ok in H as (p & Hp & H).
    apply bind_ok in H as (ps & Hps & H).
    injection H as <-.
    constructor; [|apply IH, Hps].
    apply bind_ok in Hp as (i & Hi & Hp).
    exists i. split; [exact Hi|].
    unfold index in Hp. destruct (nth_error padded (Z.to_nat i)); [|discriminate Hp].
    now injection Hp as <-.
Qed.

Lemma map_result_length {A B} (f : A -> result B) (xs : list A) (ys : list B) :
  map_result f xs = Ok ys -> length ys = length xs.
Proof.
  revert ys. induction xs as [|x xs IH]; intros ys H.
  - now injection H as <-.
  - cbn [map_result] in H.
    apply bind_ok in H as (y & _ & H).
    apply bind_ok in H as (ys' & Hys & H).
    injection H as <-. cbn [length]. f_equal. apply IH, Hys.
Qed.

(** The packing step on buffers of one sample width: mono buffers of that
    width, at the frame rate given, all of one length. *)
Lemma zero_pad_to_longest_uniform (cropped padded : list t) (sw fs : Z) :
  zero_pad_to_longest cropped fs = Ok padded ->
  Forall (fun c => sample_width c = sw) cropped ->
  exists (m : nat) (datas : list (list Z)),
    padded = map (mono sw fs) datas
    /\ length datas = length cropped
    /\ Forall (fun d => length d = m) datas.
Proof.
  unfold zero_pad_to_longest. intros H Hsw.
  apply bind_ok in H as (mx & _ & H).
  exists (Z.to_nat mx).
  revert padded H. induction Hsw as [|c cs Hc _ IH]; intros padded H.
  - injection H as <-. exists []. repeat split; constructor.
  - cbn [map_result] in H.
    apply bind_ok in H as (p & Hp & H).
    apply bind_ok in H as (ps & Hps & H).
    injection H as <-.
    destruct (IH _ Hps) as (datas & -> & Hlen & Hall).
    unfold zero_pad in Hp.
    destruct (Z.ltb_spec (mx - Z.of_nat (length (get_array_of_samples c))) 0);
      [discriminate Hp|].
    injection Hp as <-. rewrite Hc.
    eexists (_ :: datas). split; [reflexivity|]. split; [cbn [length]; lia|].
    constructor; [|exact Hall].
    rewrite length_app, repeat_length. lia.
Qed.

Lemma split_to_mono_format (seg : t) :
  Forall (fun c => sample_width c = sample_width seg
                   /\ frame_rate c = frame_rate seg /\ channels c = 1)
         (split_to_mono seg).
Proof.
  unfold split_to_mono. apply Forall_map, Forall_forall. intros tr _.
  repeat split.
Qed.

Lemma cropped_widths (responses cropped : list t) (sw : Z) :
  Forall2 same_format responses cropped ->
  Forall (fun c => sample_width c = sw) responses ->
  Forall (fun c => sample_width c = sw) cropped.
Proof.
  induction 1 as [|a b l l' (H1 & _) _ IH]; intros Hall; [constructor|].
  inversion Hall; subst. constructor; [congruence|auto].
Qed.

(** X13. A run of the post-processing stage that completes has
    written [out/hrir.wav] and then [out/hesuvi.wav], and nothing else. The
    responses had an even number of channels, at least fourteen; the
    standard file has as many channels, all of one length, in the sample
    width and at the frame rate of the responses; the HeSuVi file is in
    that format too, and its track named [ch] in [hesuvi_order] is the track
    of the standard file at position [IR_ORDER.index(ch)]. *)
Theorem postprocess_writes_hrir_then_hesuvi
    (responses : AudioSegment.t) (files files' : list (string * file)) :
  0 <= sample_width responses -> 0 <= frame_rate responses ->
  postprocess_stage responses files = (files', Ok tt) ->
  exists standard hesuvi,
    files' = files ++ [("out/hrir.wav"%string, Wav standard);
                       ("out/hesuvi.wav"%string, Wav hesuvi)]
    /\ 14 <= channels responses
    /\ Z.even (channels responses) = true
    /\ channels standard = channels responses
    /\ sample_width standard = sample_width responses
    /\ frame_rate standard = frame_rate responses
    /\ sample_width hesuvi = sample_width responses
    /\ frame_rate hesuvi = frame_rate responses
    /\ (exists m, Forall (fun tr => length tr = m) (tracks standard))
    /\ Forall2 (fun ch tr =>
                  exists i, list_index ch IR_ORDER = Ok i
                            /\ nth_error (tracks standard) (Z.to_nat i) = Some tr)
               hesuvi_order (tracks hesuvi).
Proof.
  intros Hsw Hfs H. rewrite postprocess_stage_steps in H.
  destruct (crop_pairs (split_to_mono responses) 0) as [cropped|e] eqn:Hcrop;
    [|discriminate H].
  destruct (zero_pad_to_longest cropped (frame_rate responses))
    as [padded|e] eqn:Hpad; [|discriminate H].
  destruct (from_mono_audiosegments padded) as [standard|e] eqn:Hstd;
    [|discriminate H].
  destruct (map_result _ hesuvi_order) as [in_order|e] eqn:Hord;
    [|discriminate H].
  destruct (from_mono_audiosegments in_order) as [hesuvi|e] eqn:Hhes;
    [|discriminate H].
  injection H as <-.
  apply crop_pairs_format with (n := length (split_to_mono responses)) in Hcrop
    as [Hfmt Heven]; [|apply le_n].
  assert (Hw : Forall (fun c => sample_width c = sample_width responses) cropped).
  { apply (cropped_widths _ _ _ Hfmt).
    eapply Forall_impl; [|apply split_to_mono_format]. now intros c [H _]. }
  destruct (zero_pad_to_longest_uniform _ _ _ _ Hpad Hw)
    as (m & datas & -> & Hlen & Hall).
  assert (Hn : length datas = length (tracks responses)).
  { rewrite Hlen, <- (Forall2_length Hfmt). unfold split_to_mono.
    apply length_map. }
  assert (H14 : (14 <= length datas)%nat).
  { destruct (Nat.le_gt_cases 14 (length datas)) as [Hle|Hlt]; [exact Hle|].
    rewrite hesuvi_needs_14 in Hord by (rewrite length_map; exact Hlt).
    discriminate Hord. }
  assert (Hne : datas <> []) by (intros ->; simpl in H14; lia).
  rewrite (from_mono_uniform _ _ m datas Hsw Hfs Hne Hall) in Hstd.
  injection Hstd as <-.
  apply map_result_lookup in Hord.
  assert (Hsel : exists ds,
             in_order = map (mono (sample_width responses) (frame_rate responses)) ds
             /\ Forall2 (fun ch tr =>
                           exists i, list_index ch IR_ORDER = Ok i
                                     /\ nth_error datas (Z.to_nat i) = Some tr)
                        hesuvi_order ds).
  { clear Hhes. induction Hord as [|ch p chs ps (i & Hi & Hp) _ (ds & -> & IH)].
    - exists []. split; constructor.
    - rewrite nth_error_map in Hp.
      destruct (nth_error datas (Z.to_nat i)) as [d|] eqn:Hd; [|discriminate Hp].
      injection Hp as <-. exists (d :: ds). split; [reflexivity|].
      constructor; [eauto|exact IH]. }
  destruct Hsel as (ds & -> & Hds).
  assert (Hds_len : Forall (fun d => length d = m) ds).
  { clear Hhes Hord. rewrite Forall_forall in Hall.
    induction Hds as [|ch d chs ds' (i & _ & Hd) _ IH]; [constructor|].
    constructor; [|exact IH].
    apply Hall. eapply nth_error_In, Hd. }
  assert (Hds_ne : ds <> []).
  { intros ->. inversion Hds. }
  rewrite (from_mono_uniform _ _ m ds Hsw Hfs Hds_ne Hds_len) in Hhes.
  injection Hhes as <-.
  eexists _, _. split; [reflexivity|].
  cbn [sample_width frame_rate tracks]. unfold channels at 3.
  cbn [tracks].
  assert (Hch : channels responses = Z.of_nat (length datas))
    by (unfold channels; lia).
  repeat split; try reflexivity.
  - lia.
  - rewrite Hch. rewrite Z.even_spec. unfold split_to_mono in Heven.
    rewrite length_map, <- Hn in Heven. apply Nat.even_spec in Heven.
    destruct Heven as [k ->]. exists (Z.of_nat k). lia.
  - lia.
  - exists m. exact Hall.
  - exact Hds.
Qed.

Lemma postprocess_writes_hrir_then_hesuvi_witness :
  exists standard hesuvi,
    fst (postprocess_stage responses14 [])
    = [] ++ [("out/hrir.wav"%string, Wav standard);
             ("out/hesuvi.wav"%string, Wav hesuvi)]
    /\ 14 <= channels responses14
    /\ Z.even (channels responses14) = true
    /\ channels standard = channels responses14
    /\ sample_width standard = sample_width responses14
    /\ frame_rate standard = frame_rate responses14
    /\ sample_width hesuvi = sample_width responses14
    /\ frame_rate hesuvi = frame_rate responses14
    /\ (exists m, Forall (fun tr => length tr = m) (tracks standard))
    /\ Forall2 (fun ch tr =>
                  exists i, list_index ch IR_ORDER = Ok i
                            /\ nth_error (tracks standard) (Z.to_nat i) = Some tr)
               hesuvi_order (tracks hesuvi).
Proof.
  apply (postprocess_writes_hrir_then_hesuvi
           responses14 [] (fst (postprocess_stage responses14 []))).
  - vm_compute. discriminate.
  - vm_compute. discriminate.
  - vm_compute. reflexivity.
Defined.

(** X15. Responses with fewer than fourteen channels that pass the
    cropping loop: the stage writes [out/hrir.wav] with as many channels as
    the responses and then raises [IndexError] when it puts the buffers in
    the HeSuVi order; [out/hesuvi.wav] is not written. *)
Theorem postprocess_short_of_fourteen_channels
    (responses : AudioSegment.t) (cropped : list AudioSegment.t)
    (files : list (string * file)) :
  0 <= sample_width responses -> 0 <= frame_rate responses ->
  0 < channels responses < 14 ->
  crop_pairs (split_to_mono responses) 0 = Ok cropped ->
  exists standard,
    postprocess_stage responses files
    = (files ++ [("out/hrir.wav"%string, Wav standard)], Raise IndexError)
    /\ channels standard = channels responses.
Proof.
  intros Hsw Hfs [Hpos H14] Hcrop. rewrite postprocess_stage_steps, Hcrop.
  apply crop_pairs_format with (n := length (split_to_mono responses)) in Hcrop
    as [Hfmt _]; [|apply le_n].
  assert (Hlenc : length cropped = length (tracks responses)).
  { rewrite <- (Forall2_length Hfmt). unfold split_to_mono. apply length_map. }
  assert (Hw : Forall (fun c => sample_width c = sample_width responses) cropped).
  { apply (cropped_widths _ _ _ Hfmt).
    eapply Forall_impl; [|apply split_to_mono_format]. now intros c [H _]. }
  assert (Hne : cropped <> []).
  { intros ->. unfold channels in Hpos. simpl in Hlenc. lia. }
  destruct cropped as [|c0 cs] eqn:Ec; [congruence|]. rewrite <- Ec in *.
  assert (Hpad : exists padded,
             zero_pad_to_longest cropped (frame_rate responses) = Ok padded).
  { unfold zero_pad_to_longest.
    destruct (py_max (map (fun ir => Z.of_nat (length (get_array_of_samples ir)))
                          cropped)) as [mx|e] eqn:Hmax.
    2:{ rewrite Ec in Hmax. discriminate Hmax. }
    cbn [bind]. apply py_max_spec in Hmax as [_ Hub].
    destruct (map_zero_pad mx (frame_rate responses) cropped) as (padded & Hp & _).
    { intros ir Hin. apply Hub. unfold samples_of.
      apply (in_map (fun ir => Z.of_nat (length (get_array_of_samples ir)))), Hin. }
    eauto. }
  destruct Hpad as [padded Hpad]. rewrite Hpad.
  destruct (zero_pad_to_longest_uniform _ _ _ _ Hpad Hw)
    as (m & datas & -> & Hlen & Hall).
  assert (Hd : datas <> []).
  { intros ->. rewrite Ec in Hlen. discriminate Hlen. }
  rewrite (from_mono_uniform _ _ m datas Hsw Hfs Hd Hall).
  rewrite hesuvi_needs_14.
  2:{ rewrite length_map, Hlen, Hlenc. unfold channels in H14. lia. }
  eexists. split; [reflexivity|].
  unfold channels. cbn [tracks]. lia.
Qed.

Lemma postprocess_short_of_fourteen_channels_witness :
  exists standard,
    postprocess_stage responses2 []
    = ([] ++ [("out/hrir.wav"%string, Wav standard)], Raise IndexError)
    /\ channels standard = channels responses2.
Proof.
  apply (postprocess_short_of_fourteen_channels
           responses2
           [mono 2 8000 [0; 0; 20000; 10000; -5000; 0; 0];
            mono 2 8000 [0; 0; 0; 0; 0; 0; 20000]] []).
  - vm_compute. discriminate.
  - vm_compute. discriminate.
  - vm_compute. split; reflexivity.
  - vm_compute. reflexivity.
Defined.

(** ** [split_recording]: what it refuses *)

Lemma hd_map_slice (trs : list (list Z)) (i j : Z) :
  hd [] (map (fun tr => Py.slice tr i j) trs) = Py.slice (hd [] trs) i j.
Proof.
  destruct trs as [|tr trs]; [|reflexivity].
  unfold Py.slice. cbn [hd map length]. now rewrite skipn_nil, firstn_nil.
Qed.

(** [seg[start:]] with a nonnegative start never raises: at most half a
    millisecond of frames can be missing. *)
Lemma getslice_start_total (seg : t) (start : Q) :
  0 < frame_rate seg -> (0 <= start)%Q ->
  exists r, getslice seg (Some start) None = Ok r.
Proof.
  intros Hfs Hstart.
  destruct (len_bounds seg Hfs) as [[Hlo Hhi] HL].
  pose proof (rate_pos _ Hfs) as Hr.
  set (r := (inject_Z (frame_rate seg) / 1000)%Q) in *.
  assert (HLq : (0 <= inject_Z (len seg))%Q) by (apply (zle_q 0); exact HL).
  unfold getslice.
  set (v := Py.min start (inject_Z (len seg))).
  assert (Hv : (0 <= v <= inject_Z (len seg))%Q).
  { unfold v, Py.min. destruct (ltb_spec (inject_Z (len seg)) start); lra. }
  rewrite (parse_nonneg seg v Hfs) by lra.
  rewrite (min_le (inject_Z (len seg)) (inject_Z (len seg))) by lra.
  rewrite (parse_nonneg seg (inject_Z (len seg)) Hfs) by lra.
  fold r.
  set (sf := Qfloor (v * r)). set (ef := Qfloor (inject_Z (len seg) * r)).
  assert (Hsf0 : 0 <= sf) by (apply floor_ge; apply Qmult_le_0_compat; lra).
  assert (Hsfef : sf <= ef).
  { apply Qfloor_resp_le. apply Qmult_le_compat_r; lra. }
  rewrite hd_map_slice.
  destruct (_ =? 0); [eexists; reflexivity|].
  destruct (Py.gtb _ _) eqn:Hg; [|eexists; reflexivity].
  exfalso. unfold Py.gtb in Hg.
  match type of Hg with Py.ltb ?a ?b = true =>
    destruct (ltb_spec a b) as [Hlt|]; [|discriminate] end.
  unfold frame_count_ms in Hlt. fold r in Hlt.
  pose proof (length_slice (hd [] (tracks seg)) sf ef (conj Hsf0 Hsfef)) as Hgot.
  fold (frames seg) in Hgot.
  assert (Hmiss : ef - sf - Z.of_nat (length (Py.slice (hd [] (tracks seg)) sf ef))
                  <= Z.max 0 (ef - frames seg)) by lia.
  apply zle_q in Hmiss.
  assert (Hefq : (inject_Z ef <= inject_Z (len seg) * r)%Q) by apply Qfloor_le.
  assert (Hmax : (inject_Z (Z.max 0 (ef - frames seg)) <= (1 # 2) * r)%Q).
  { destruct (Z.max_spec 0 (ef - frames seg)) as [[_ ->]|[_ ->]].
    - replace (ef - frames seg) with (ef + - frames seg) by lia.
      rewrite inject_Z_plus, inject_Z_opp. lra.
    - change (inject_Z 0) with 0%Q. lra. }
  lra.
Qed.

Lemma split_tracks_no_columns (is_ : list Z) : split_tracks [] is_ = Ok [].
Proof.
  induction is_ as [|i is_ IH]; [reflexivity|].
  cbn [split_tracks column_pairs bind]. rewrite IH. reflexivity.
Qed.

(** X6. With fewer speakers than track pairs the number of columns,
    [len(speakers) // (channels // 2)], is 0: no column is cut, no track is
    collected, and [from_mono_audiosegments] raises on the empty list. An
    empty speaker list is the instance with no speaker at all. *)
Theorem split_recording_needs_a_speaker_per_pair
    (recording test_signal : AudioSegment.t) (speakers : list string)
    (silence_length : Q) :
  0 < frame_rate recording -> (0 <= silence_length)%Q ->
  2 <= channels recording ->
  Z.of_nat (length speakers) < channels recording / 2 ->
  split_recording recording test_signal speakers silence_length
  = Raise (ValueError ["At least one AudioSegment instance is required"%string]).
Proof.
  intros Hfs Hsl Hc Hfew. unfold split_recording.
  destruct (Z.eqb_spec (channels recording / 2) 0) as [H0|_]; [lia|].
  rewrite (Z.div_small (Z.of_nat (length speakers))) by lia.
  destruct (getslice_start_total recording (silence_length * 1000) Hfs)
    as [remainder ->].
  { apply Qmult_le_0_compat; [exact Hsl|discriminate]. }
  cbn [bind Z.to_nat split_columns]. rewrite split_tracks_no_columns.
  reflexivity.
Qed.

Lemma split_recording_needs_a_speaker_per_pair_witness :
  split_recording (synthetic_recording 2 1000 2 four_tracks_two_columns)
                  stimulus_3ms ["FL"%string] (2 # 1000)
  = Raise (ValueError ["At least one AudioSegment instance is required"%string]).
Proof.
  apply (split_recording_needs_a_speaker_per_pair
           (synthetic_recording 2 1000 2 four_tracks_two_columns)
           stimulus_3ms ["FL"%string] (2 # 1000)).
  - vm_compute. reflexivity.
  - vm_compute. discriminate.
  - vm_compute. discriminate.
  - vm_compute. reflexivity.
Defined.

(** The first loop on a remainder of positive frame rate, for a
    nonnegative column length: it never raises, and every column holds
    one mono segment per track. *)
Lemma split_columns_total (n : nat) (ms : Q) :
  (0 <= ms)%Q ->
  forall remainder : t,
    0 < frame_rate remainder ->
    exists columns,
      split_columns n ms remainder = Ok columns
      /\ length columns = n
      /\ Forall (fun column => length column = length (tracks remainder)) columns.
Proof.
  intros Hms. induction n as [|n IH]; intros remainder Hfs.
  - exists []. repeat split. constructor.
  - cbn [split_columns].
    destruct (getslice_stop_total remainder ms Hfs Hms) as [column Hc].
    destruct (getslice_start_total remainder ms Hfs Hms) as [rest Hr].
    rewrite Hc, Hr. cbn [bind].
    apply getslice_format in Hc as (_ & _ & Hct).
    apply getslice_format in Hr as (_ & Hrf & Hrt).
    destruct (IH rest) as (columns & -> & Hlen & Hall); [lia|].
    cbn [bind]. eexists. split; [reflexivity|]. split; [cbn [length]; lia|].
    constructor.
    + unfold split_to_mono. rewrite length_map. exact Hct.
    + eapply Forall_impl; [|exact Hall]. intros c Hcl. cbn beta in Hcl. lia.
Qed.

Lemma index_raises {A} (xs : list A) (i : Z) (e : exn) :
  index xs i = Raise e -> e = IndexError.
Proof.
  unfold index. destruct (nth_error xs (Z.to_nat i)); intros H;
    [discriminate H|now injection H as <-].
Qed.

Lemma index_ok {A} (xs : list A) (i : Z) (x : A) :
  index xs i = Ok x -> (Z.to_nat i < length xs)%nat.
Proof.
  unfold index. destruct (nth_error xs (Z.to_nat i)) eqn:H; intros Hx;
    [|discriminate Hx].
  apply nth_error_Some. congruence.
Qed.

Lemma column_pairs_raises (columns : list (list t)) (i : Z) (e : exn) :
  column_pairs columns i = Raise e -> e = IndexError.
Proof.
  induction columns as [|column columns IH]; intros H; [discriminate H|].
  cbn [column_pairs] in H.
  destruct (index column i) eqn:H1; cbn [bind] in H.
  2:{ injection H as <-. eapply index_raises, H1. }
  destruct (index column (i + 1)) eqn:H2; cbn [bind] in H.
  2:{ injection H as <-. eapply index_raises, H2. }
  destruct (column_pairs columns i) eqn:H3; cbn [bind] in H;
    [discriminate H|].
  injection H as <-. now apply IH.
Qed.

Lemma split_tracks_raises (columns : list (list t)) (is_ : list Z) (e : exn) :
  split_tracks columns is_ = Raise e -> e = IndexError.
Proof.
  induction is_ as [|i is_ IH]; intros H; [discriminate H|].
  cbn [split_tracks] in H.
  destruct (column_pairs columns i) eqn:H1; cbn [bind] in H.
  2:{ injection H as <-. eapply column_pairs_raises, H1. }
  destruct (split_tracks columns is_) eqn:H2; cbn [bind] in H;
    [discriminate H|].
  injection H as <-. now apply IH.
Qed.

(** A run of the second loop that completes has read [column[i + 1]] in
    the first column for every [i]. *)
Lemma split_tracks_ok (column : list t) (columns : list (list t))
      (is_ : list Z) (tracks : list t) (i : Z) :
  split_tracks (column :: columns) is_ = Ok tracks ->
  In i is_ -> (Z.to_nat (i + 1) < length column)%nat.
Proof.
  revert tracks. induction is_ as [|j is_ IH]; intros tracks H Hin;
    [destruct Hin|].
  cbn [split_tracks] in H.
  apply bind_ok in H as (here & Hh & H).
  apply bind_ok in H as (rest & Hr & _).
  destruct Hin as [->|Hin]; [|eapply IH; eassumption].
  cbn [column_pairs] in Hh.
  apply bind_ok in Hh as (l & _ & Hh).
  apply bind_ok in Hh as (r & Hi & _).
  eapply index_ok, Hi.
Qed.

Lemma last_even_below_odd (c : Z) :
  3 <= c -> Z.odd c = true -> In (c - 1) (evens_below c).
Proof.
  intros Hc Hodd. unfold evens_below.
  apply Zodd_bool_iff, Zodd_ex in Hodd as [j Hj].
  apply in_map_iff. exists (Z.to_nat j). split; [lia|].
  apply in_seq. split; [lia|].
  replace ((c + 1) / 2) with (j + 1); [lia|].
  apply Z.div_unique with (r := 0); lia.
Qed.

(** X7. An odd number of tracks, three or more, is refused with
    [IndexError] as soon as there is a column: the second loop steps
    through the tracks two by two and reads [column[i + 1]] past the last
    track. *)
Theorem split_recording_refuses_odd_track_count
    (recording test_signal : AudioSegment.t) (speakers : list string)
    (silence_length : Q) :
  0 < frame_rate recording -> 0 < frame_rate test_signal ->
  (0 <= silence_length)%Q ->
  3 <= channels recording -> Z.odd (channels recording) = true ->
  channels recording / 2 <= Z.of_nat (length speakers) ->
  split_recording recording test_signal speakers silence_length
  = Raise IndexError.
Proof.
  intros Hfs Hft Hsl Hc Hodd Hsp. unfold split_recording.
  assert (Hhalf : 1 <= channels recording / 2).
  { apply Z.div_le_lower_bound; lia. }
  destruct (Z.eqb_spec (channels recording / 2) 0) as [H0|_]; [lia|].
  assert (Hstart : (0 <= silence_length * 1000)%Q)
    by (apply Qmult_le_0_compat; [exact Hsl|discriminate]).
  destruct (getslice_start_total recording _ Hfs Hstart) as [remainder Hrem].
  rewrite Hrem. cbn [bind].
  apply getslice_format in Hrem as (_ & Hrf & Hrt).
  assert (Hms : (0 <= silence_length * 1000 + inject_Z (len test_signal))%Q).
  { destruct (len_bounds test_signal Hft) as [_ HL].
    apply (zle_q 0) in HL. change (inject_Z 0) with 0%Q in HL. lra. }
  set (n := Z.to_nat (Z.of_nat (length speakers) / (channels recording / 2))).
  assert (Hn : (1 <= n)%nat).
  { assert (1 <= Z.of_nat (length speakers) / (channels recording / 2))
      by (apply Z.div_le_lower_bound; lia).
    unfold n. lia. }
  destruct (split_columns_total n _ Hms remainder) as (columns & -> & Hlen & Hall);
    [lia|].
  cbn [bind].
  destruct columns as [|column columns]; [simpl in Hlen; lia|].
  inversion Hall as [|? ? Hcol _]; subst.
  destruct (split_tracks (column :: columns) (evens_below (channels recording)))
    as [tracks|e] eqn:Ht; cbn [bind].
  - exfalso.
    pose proof (split_tracks_ok _ _ _ _ (channels recording - 1) Ht
                                (last_even_below_odd _ Hc Hodd)) as Hlt.
    unfold channels in Hlt. lia.
  - apply split_tracks_raises in Ht as ->. reflexivity.
Qed.

Lemma split_recording_refuses_odd_track_count_witness :
  split_recording (make 2 1000 [repeat 1 12; repeat 2 12; repeat 3 12])
                  stimulus_3ms ["FL"; "FR"]%string (2 # 1000)
  = Raise IndexError.
Proof.
  apply (split_recording_refuses_odd_track_count
           (make 2 1000 [repeat 1 12; repeat 2 12; repeat 3 12])
           stimulus_3ms ["FL"; "FR"]%string (2 # 1000)).
  - vm_compute. reflexivity.
  - vm_compute. reflexivity.
  - vm_compute. discriminate.
  - vm_compute. discriminate.
  - vm_compute. reflexivity.
  - vm_compute. discriminate.
Defined.

(** ** The pre-processing stage *)

Lemma from_mono_ok (segs : list t) (r : t) :
  from_mono_audiosegments segs = Ok r ->
  segs <> []
  /\ Forall (fun seg => channels seg = 1) segs
  /\ tracks r
     = map (fun seg => lin2lin (sample_width seg)
                               (fold_right Z.max 0 (map sample_width segs))
                               (get_array_of_samples seg))
           segs.
Proof.
  unfold from_mono_audiosegments. destruct segs as [|seg0 segs']; [discriminate|].
  set (segs := seg0 :: segs').
  destruct (forallb (fun seg => channels seg =? 1) segs) eqn:Hmono;
    cbn [negb]; [|discriminate].
  destruct ((1 <? Z.of_nat (length segs)) && _); [discriminate|].
  intros H. injection H as <-. split; [discriminate|]. split; [|reflexivity].
  rewrite forallb_forall in Hmono. apply Forall_forall.
  intros seg Hin. apply Z.eqb_eq, Hmono, Hin.
Qed.

Lemma length_lin2lin (sw sw' : Z) (data : list Z) :
  length (lin2lin sw sw' data) = length data.
Proof.
  unfold lin2lin. destruct (sw' <? sw); apply length_map.
Qed.

Lemma normalize_tracks (seg : t) :
  length (tracks (normalize seg)) = length (tracks seg).
Proof.
  unfold normalize. destruct (max seg =? 0); [reflexivity|].
  cbn [tracks]. apply length_map.
Qed.

(** The stage, one step after the other. *)
Lemma preprocess_stage_steps (recording test : t) (speakers : list string)
      (silence_length : Q) (files files' : list (string * file)) (p : t) :
  preprocess_stage recording test speakers silence_length files = (files', Ok p) ->
  exists sweeps reordered preprocessed tests,
    split_recording recording test speakers silence_length = Ok sweeps
    /\ map_result
         (fun ch =>
            if negb (existsb (String.eqb ch)
                       (flat_map (fun speaker =>
                                    [speaker ++ "-left"; speaker ++ "-right"]%string)
                                 speakers)) then
              s0 <- index (split_to_mono sweeps) 0 ;;
              Ok (silent (len s0) (frame_rate s0))
            else
              i <- list_index ch
                     (flat_map (fun speaker =>
                                  [speaker ++ "-left"; speaker ++ "-right"]%string)
                               speakers) ;;
              index (split_to_mono sweeps) i)
         IR_ORDER = Ok reordered
    /\ from_mono_audiosegments reordered = Ok preprocessed
    /\ p = normalize preprocessed
    /\ from_mono_audiosegments (repeat test (Z.to_nat (channels p))) = Ok tests
    /\ files' = files ++ [("out/preprocessed.wav"%string, Wav p);
                          ("out/tests.wav"%string, Wav tests)].
Proof.
  unfold preprocess_stage, bind_io, lift, export, ret.
  destruct (split_recording recording test speakers silence_length)
    as [sweeps|e]; [|discriminate].
  destruct (map_result _ IR_ORDER) as [reordered|e] eqn:Hre; [|discriminate].
  destruct (from_mono_audiosegments reordered) as [preprocessed|e] eqn:Hpre;
    [|discriminate].
  destruct (from_mono_audiosegments (repeat test _)) as [tests|e] eqn:Ht;
    [|discriminate].
  intros H. injection H as <- <-.
  exists sweeps, reordered, preprocessed, tests.
  rewrite <- app_assoc. repeat split; try reflexivity; assumption.
Qed.

(** X16. A run of the pre-processing stage that completes returns a
    segment of fourteen channels, one per name of [IR_ORDER], whatever the
    number of speakers recorded; the test signal was mono; the stage has
    written [out/preprocessed.wav] holding that segment, then
    [out/tests.wav] holding fourteen tracks, each as long as the test
    signal, and nothing else. *)
Theorem preprocess_writes_fourteen_channels
    (recording test : AudioSegment.t) (speakers : list string)
    (silence_length : Q) (files files' : list (string * file))
    (p : AudioSegment.t) :
  preprocess_stage recording test speakers silence_length files = (files', Ok p) ->
  channels p = 14
  /\ channels test = 1
  /\ exists tests,
       files' = files ++ [("out/preprocessed.wav"%string, Wav p);
                          ("out/tests.wav"%string, Wav tests)]
       /\ channels tests = 14
       /\ Forall (fun tr => Z.of_nat (length tr) = frames test) (tracks tests).
Proof.
  intros H.
  apply preprocess_stage_steps in H
    as (sweeps & reordered & preprocessed & tests & _ & Hre & Hpre & -> & Ht & ->).
  apply map_result_length in Hre.
  apply from_mono_ok in Hpre as (_ & _ & Htr).
  assert (Hp : channels (normalize preprocessed) = 14).
  { unfold channels. rewrite normalize_tracks, Htr, length_map, Hre.
    reflexivity. }
  rewrite Hp in Ht. apply from_mono_ok in Ht as (_ & Hmono & Htt).
  split; [exact Hp|]. split.
  { inversion Hmono; assumption. }
  exists tests. split; [reflexivity|]. split.
  - unfold channels. rewrite Htt, length_map, repeat_length. reflexivity.
  - rewrite Htt. apply Forall_map, Forall_forall. intros seg Hin.
    apply repeat_spec in Hin as ->. rewrite length_lin2lin. reflexivity.
Qed.

Lemma preprocess_writes_fourteen_channels_witness :
  channels four_speakers_preprocessed = 14
  /\ channels stimulus_3ms = 1
  /\ exists tests,
       [("out/preprocessed.wav"%string, Wav four_speakers_preprocessed);
        ("out/tests.wav"%string, Wav (make 2 1000 (repeat [1; 2; 3] 14)))]
       = [] ++ [("out/preprocessed.wav"%string, Wav four_speakers_preprocessed);
                ("out/tests.wav"%string, Wav tests)]
       /\ channels tests = 14
       /\ Forall (fun tr => Z.of_nat (length tr) = frames stimulus_3ms)
                 (tracks tests).
Proof.
  apply (preprocess_writes_fourteen_channels
           (synthetic_recording 2 1000 2 four_tracks_two_columns)
           stimulus_3ms ["FL"; "FR"; "BL"; "BR"]%string (2 # 1000) []).
  vm_compute. reflexivity.
Defined.

(** X19. [CHANNELS] has seven names: in the cropping loop a pair at
    position 7 or later (a fifteenth and sixteenth response) with both ears
    above the level threshold raises [IndexError] on [CHANNELS[i // 2]],
    after both tails are cropped. *)
Theorem eighth_loud_pair_has_no_channel
    (swl fsl swr fsr : Z) (dl dr : list Z) (k : nat) :
  0 < fsl -> 0 < fsr ->
  rms (mono swl fsl dl) > 2 -> rms (mono swr fsr dr) > 2 ->
  (7 <= k)%nat ->
  crop_pair (mono swl fsl dl) (mono swr fsr dr) k = Raise IndexError.
Proof.
  intros Hfl Hfr Hl Hr Hk. unfold crop_pair.
  apply Z.gtb_gt in Hl, Hr. rewrite Hl, Hr. cbn [andb].
  destruct (crop_ir_tail_spec swl fsl dl Hfl) as (el & -> & _).
  destruct (crop_ir_tail_spec swr fsr dr Hfr) as (er & -> & _).
  cbn [bind]. unfold index. rewrite Nat2Z.id.
  assert (Hnone : nth_error CHANNELS k = None)
    by (apply nth_error_None; simpl; lia).
  rewrite Hnone. reflexivity.
Qed.

Lemma eighth_loud_pair_has_no_channel_witness :
  crop_pair (mono 2 8000 (click 10 32)) (mono 2 8000 (click 14 32)) 7
  = Raise IndexError.
Proof.
  apply (eighth_loud_pair_has_no_channel 2 8000 2 8000 (click 10 32) (click 14 32) 7).
  - lia.
  - lia.
  - vm_compute. reflexivity.
  - vm_compute. reflexivity.
  - lia.
Defined.

(** Silence stays silence through a change of sample width and through a
    gain. *)
Lemma lin2lin_zeros (sw sw' : Z) (n : nat) :
  lin2lin sw sw' (repeat 0 n) = repeat 0 n.
Proof.
  unfold lin2lin. destruct (sw' <? sw); rewrite map_repeat; reflexivity.
Qed.

Lemma mul_zeros (sw : Z) (gain : Q) (n : nat) :
  1 <= sw -> mul sw gain (repeat 0 n) = repeat 0 n.
Proof.
  intros Hsw. unfold mul. rewrite map_repeat. f_equal.
  assert (Hp : 0 < 2 ^ (8 * sw - 1)) by (apply Z.pow_pos_nonneg; lia).
  assert (Hz : (inject_Z 0 * gain == 0)%Q) by ring.
  unfold fbound, Py.gtb.
  destruct (ltb_spec (inject_Z (maxval sw)) (inject_Z 0 * gain)) as [H|_].
  { exfalso. rewrite Hz in H. change 0%Q with (inject_Z 0) in H.
    rewrite <- Zlt_Qlt in H. unfold maxval in H. lia. }
  destruct (ltb_spec (inject_Z 0 * gain) (inject_Z (minval sw) + 1)) as [H|_].
  { exfalso. rewrite Hz in H. change 1%Q with (inject_Z 1) in H.
    rewrite <- inject_Z_plus in H. change 0%Q with (inject_Z 0) in H.
    rewrite <- Zlt_Qlt in H. unfold minval in H. lia. }
  rewrite (Qfloor_comp _ (inject_Z 0)) by exact Hz. apply Qfloor_Z.
Qed.

Lemma from_mono_width (segs : list t) (r : t) :
  from_mono_audiosegments segs = Ok r ->
  sample_width r = fold_right Z.max 0 (map sample_width segs).
Proof.
  unfold from_mono_audiosegments. destruct segs as [|seg0 segs']; [discriminate|].
  destruct (negb _); [discriminate|].
  destruct (_ && _); [discriminate|].
  intros H. now injection H as <-.
Qed.

Lemma fold_max_ge (xs : list Z) (x : Z) :
  In x xs -> x <= fold_right Z.max 0 xs.
Proof.
  induction xs as [|y ys IH]; intros Hin; [destruct Hin|].
  cbn [fold_right]. destruct Hin as [->|Hin]; [lia|].
  specialize (IH Hin). lia.
Qed.

Lemma map_result_nth {A B} (f : A -> result B) (xs : list A) (ys : list B)
      (j : nat) (x : A) :
  map_result f xs = Ok ys -> nth_error xs j = Some x ->
  exists y, nth_error ys j = Some y /\ f x = Ok y.
Proof.
  revert ys j. induction xs as [|x0 xs IH]; intros ys j H Hj.
  - destruct j; discriminate Hj.
  - cbn [map_result] in H.
    apply bind_ok in H as (y0 & Hy0 & H).
    apply bind_ok in H as (ys' & Hys & H).
    injection H as <-.
    destruct j as [|j].
    + injection Hj as <-. exists y0. split; [reflexivity|exact Hy0].
    + apply (IH _ _ Hys Hj).
Qed.

(** X20. In a completed pre-processing run whose placeholder for a
    missing speaker, [AudioSegment.silent(len(sweeps[0]),
    sweeps[0].frame_rate)], holds at least one frame, the channel of
    [out/preprocessed.wav] at the position of a name of [IR_ORDER] that no
    given speaker provides holds zeros only. *)
Theorem unlisted_speakers_are_silent
    (recording test : AudioSegment.t) (speakers : list string)
    (silence_length : Q) (files files' : list (string * file))
    (p sweeps : AudioSegment.t) (j : nat) (ch : string) :
  preprocess_stage recording test speakers silence_length files = (files', Ok p) ->
  split_recording recording test speakers silence_length = Ok sweeps ->
  (forall s0, index (split_to_mono sweeps) 0 = Ok s0 ->
              0 < frames (silent (len s0) (frame_rate s0))) ->
  nth_error IR_ORDER j = Some ch ->
  ~ In ch (sweep_order speakers) ->
  exists tr,
    nth_error (tracks p) j = Some tr
    /\ tr <> [] /\ Forall (fun v => v = 0) tr.
Proof.
  intros H Hsplit Hplace Hj Hout.
  apply preprocess_stage_steps in H
    as (sweeps' & reordered & preprocessed & tests & Hs' & Hre & Hpre & -> & _ & _).
  rewrite Hsplit in Hs'. injection Hs' as <-.
  fold (sweep_order speakers) in Hre.
  destruct (map_result_nth _ _ _ _ _ Hre Hj) as (seg & Hseg & Hf).
  assert (Hex : existsb (String.eqb ch) (sweep_order speakers) = false).
  { destruct (existsb (String.eqb ch) (sweep_order speakers)) eqn:E; [|reflexivity].
    exfalso. apply existsb_exists in E as (x & Hin & Hx).
    apply String.eqb_eq in Hx as ->. exact (Hout Hin). }
  rewrite Hex in Hf. cbn [negb] in Hf.
  apply bind_ok in Hf as (s0 & Hs0 & Hf). injection Hf as <-.
  specialize (Hplace s0 Hs0).
  pose proof (from_mono_width _ _ Hpre) as Hw.
  apply from_mono_ok in Hpre as (_ & _ & Htr).
  set (sw := fold_right Z.max 0 (map sample_width reordered)) in *.
  assert (Hsw : 2 <= sw).
  { apply (fold_max_ge (map sample_width reordered) 2).
    apply nth_error_In in Hseg.
    apply (in_map sample_width) in Hseg. exact Hseg. }
  assert (Hpj : exists n, (0 < n)%nat
                          /\ nth_error (tracks preprocessed) j = Some (repeat 0 n)).
  { rewrite Htr, nth_error_map, Hseg. cbn [option_map].
    unfold silent in *. unfold frames in Hplace.
    cbn [mono sample_width get_array_of_samples tracks hd] in *.
    rewrite repeat_length in Hplace.
    rewrite lin2lin_zeros. eexists. split; [|reflexivity]. lia. }
  destruct Hpj as (n & Hn & Hpj).
  exists (repeat 0 n). split; [|split].
  - unfold normalize. destruct (max preprocessed =? 0); [exact Hpj|].
    cbn [tracks]. rewrite nth_error_map, Hpj. cbn [option_map].
    f_equal. apply mul_zeros. lia.
  - destruct n; [lia|discriminate].
  - apply Forall_forall. intros v Hv. now apply repeat_spec in Hv.
Qed.

Lemma unlisted_speakers_are_silent_witness :
  exists tr, nth_error (tracks four_speakers_preprocessed) 4 = Some tr
             /\ tr <> [] /\ Forall (fun v => v = 0) tr.
Proof.
  apply (unlisted_speakers_are_silent
           (synthetic_recording 2 1000 2 four_tracks_two_columns)
           stimulus_3ms ["FL"; "FR"; "BL"; "BR"]%string (binary64 (2 # 1000)) []
           [("out/preprocessed.wav"%string, Wav four_speakers_preprocessed);
            ("out/tests.wav"%string, Wav (make 2 1000 (repeat [1; 2; 3] 14)))]
           four_speakers_preprocessed
           (make 2 1000 (expected_excerpts 2 four_tracks_two_columns 2))
           4 "FC-left").
  - vm_compute. reflexivity.
  - vm_compute. reflexivity.
  - intros s0 Hs0. vm_compute in Hs0. injection Hs0 as <-.
    vm_compute. reflexivity.
  - reflexivity.
  - simpl. intuition discriminate.
Defined.
